(** * CShell: a shallow embedding of [src/main.c]

    The shell reads a line, splits it into an argument vector, and either
    runs one of three builtins in-process or forks, execs and waits for an
    external program.  Every function of [main.c] is embedded below under
    its own name.  The C library and the kernel are modelled as far as the
    program can observe them: byte strings with their NUL terminator, the
    <sys/wait.h> status word, a line-buffered input stream, and a [world]
    record that carries the process state together with the answers the
    environment gives to [fork], [execvp], [waitpid], [chdir] and the
    allocator. *)

From Stdlib Require Import ZArith List String Ascii Bool Arith Lia.
From Equations Require Import Equations.
From Equations.Prop Require Import Logic.
Import ListNotations.

Local Open Scope string_scope.
Local Open Scope Z_scope.

(** ** C strings

    A [char *] is modelled by the bytes it points at.  A Rocq [string] may
    hold the byte 0; every C routine below stops at the first one, as the
    library does, and treats the end of the Rocq string as the terminator. *)

Module CStr.

Definition NUL : ascii := Ascii.zero.

Definition is_nul (c : ascii) : bool := Ascii.eqb c NUL.

(** The bytes of a buffer seen as a C string: everything before the
    first NUL. *)
Fixpoint cstr (buf : string) : string :=
  match buf with
  | EmptyString => EmptyString
  | String c rest => if is_nul c then EmptyString else String c (cstr rest)
  end.

Definition byte (c : ascii) : Z := Z.of_N (N_of_ascii c).

(** [strcmp]: difference of the first pair of bytes that differ, read as
    [unsigned char]; the terminator counts as byte 0. *)
Fixpoint strcmp (a b : string) : Z :=
  match a, b with
  | EmptyString, EmptyString => 0
  | EmptyString, String y _ => 0 - byte y
  | String x _, EmptyString => byte x - 0
  | String x a', String y b' =>
      if Ascii.eqb x y
      then (if is_nul x then 0 else strcmp a' b')
      else byte x - byte y
  end.

(** Membership of a byte in a delimiter set, as [strchr] over the set. *)
Fixpoint in_set (c : ascii) (set : string) : bool :=
  match set with
  | EmptyString => false
  | String d set' => Ascii.eqb c d || in_set c set'
  end.

(** [s + strspn(s, delim)]: skip the leading bytes that are in [delim]. *)
Fixpoint skip_delims (delim s : string) : string :=
  match s with
  | EmptyString => EmptyString
  | String c rest =>
      if is_nul c then s
      else if in_set c delim then skip_delims delim rest
      else s
  end.

(** Scan one token from [s]: the bytes up to the first delimiter or the
    terminator.  A delimiter that ends the token is overwritten by NUL and
    the save pointer moves past it; at the terminator the save pointer
    stays on it. *)
Fixpoint scan_token (delim s : string) : string * string :=
  match s with
  | EmptyString => (EmptyString, EmptyString)
  | String c rest =>
      if is_nul c then (EmptyString, s)
      else if in_set c delim then (EmptyString, rest)
      else let '(tok, save) := scan_token delim rest in (String c tok, save)
  end.

(** [strtok], with its static save pointer made explicit: [s] is what the
    pointer the call starts from points at ([line] on the first call, the
    saved pointer on a call with NULL).  [None] is the NULL result. *)
Definition strtok (s delim : string) : option (string * string) :=
  match skip_delims delim s with
  | EmptyString => None
  | String c rest =>
      if is_nul c then None else Some (scan_token delim (String c rest))
  end.

End CStr.

(** ** The wait status word

  [waitpid] stores an [int]; the macros below are those of glibc's
  <bits/waitstatus.h>, on which [launch] branches. *)

Module WaitStatus.

(** Conversion to [signed char]. *)
Definition to_schar (x : Z) : Z :=
  let b := x mod 256 in if b <? 128 then b else b - 256.

Definition WTERMSIG (status : Z) : Z := Z.land status 127.

Definition WIFEXITED (status : Z) : bool := WTERMSIG status =? 0.
Definition WIFSIGNALED (status : Z) : bool :=
  0 <? Z.shiftr (to_schar (Z.land status 127 + 1)) 1.
Definition WIFSTOPPED (status : Z) : bool := Z.land status 255 =? 127.

Definition W_STOPCODE (sig : Z) : Z := Z.lor (Z.shiftl sig 8) 127.

Definition WUNTRACED : Z := 2.

End WaitStatus.

(** ** The process and its environment *)

Module Sys.

Definition EXIT_SUCCESS : Z := 0.
Definition EXIT_FAILURE : Z := 1.

Definition newline : ascii := "010"%char.
Definition nl : string := String newline EmptyString.

(** *** The input stream

    [f_pending] holds the bytes the stream will still deliver; once they
    are consumed, a further read meets [f_end]: end of file, or a read
    error with its [errno].  [f_eof] and [f_error] are the stream's two
    indicators. *)

Inductive end_cond : Type :=
| AtEOF
| ReadError (errno : Z).

Record FILE : Type := mkFILE {
  f_pending : string;
  f_end : end_cond;
  f_eof : bool;
  f_error : bool
}.

(** Cut [s] after its first newline, if it has one. *)
Fixpoint take_line (s : string) : option (string * string) :=
  match s with
  | EmptyString => None
  | String c rest =>
      if Ascii.eqb c newline then Some (String c EmptyString, rest)
      else match take_line rest with
           | Some (l, r) => Some (String c l, r)
           | None => None
           end
  end.

Definition hit_end (f : FILE) : FILE :=
  match f_end f with
  | AtEOF => mkFILE EmptyString (f_end f) true (f_error f)
  | ReadError _ => mkFILE EmptyString (f_end f) (f_eof f) true
  end.

(** One [getline] on the stream: the line with its newline; or, when the
    stream ends first, the bytes read so far if there are any, and
    failure if there are none.  The result is the buffer, or [None] for
    the return value -1. *)
Definition stream_getline (f : FILE) : option string * FILE :=
  match take_line (f_pending f) with
  | Some (l, r) => (Some l, mkFILE r (f_end f) (f_eof f) (f_error f))
  | None =>
      match f_pending f with
      | EmptyString => (None, hit_end f)
      | String _ _ => (Some (f_pending f), hit_end f)
      end
  end.

(** *** The world *)

(** What a [waitpid] on a child does once every report on it was taken:
    it does not come back, or it fails, returning -1 with an [errno] and
    storing nothing (ECHILD, when the process ignores SIGCHLD and the child
    is gone), and so does every later call. *)
Inductive wait_end : Type :=
| WaitBlocks
| WaitFails (errno : Z).

(** What the environment answers to one [fork]: the value returned in the
    process that is followed, the [errno] of a failure, and the status
    words that the [waitpid] calls on the new child will store, in order.
    What comes after the last of them is the world's [w_wait_end]. *)
Record child_script : Type := mkScript {
  fork_ret : Z;
  fork_errno : Z;
  wait_trace : list Z
}.

Record world : Type := mkWorld {
  w_stdin : FILE;
  w_stdout : string;
  w_stderr : string;
  w_errno : Z;
  w_cwd : string;
  (** directory resolution: from a working directory and a path, the new
      working directory, or the [errno] of the failure *)
  w_chdir : string -> string -> string + Z;
  (** [execvp file argv]: [None] when the image is replaced, [Some e]
      when the call returns -1 with [errno] [e] *)
  w_execvp : option string -> list string -> option Z;
  (** whether the allocator serves a request of that many bytes *)
  w_heap : Z -> bool;
  (** the answer to the n-th [fork] *)
  w_script : nat -> child_script;
  w_nfork : nat;
  (** per child pid, the status words not yet reported *)
  w_children : Z -> list Z;
  (** the word found in an [int] local that was not initialised, by the
      number of [fork] calls made before *)
  w_stack : nat -> Z;
  (** per child pid, what [waitpid] does when no report is left *)
  w_wait_end : Z -> wait_end
}.

Definition set_stdin (f : FILE) (w : world) : world :=
  mkWorld f (w_stdout w) (w_stderr w) (w_errno w) (w_cwd w) (w_chdir w)
          (w_execvp w) (w_heap w) (w_script w) (w_nfork w) (w_children w)
          (w_stack w) (w_wait_end w).
Definition set_stdout (s : string) (w : world) : world :=
  mkWorld (w_stdin w) s (w_stderr w) (w_errno w) (w_cwd w) (w_chdir w)
          (w_execvp w) (w_heap w) (w_script w) (w_nfork w) (w_children w)
          (w_stack w) (w_wait_end w).
Definition set_stderr (s : string) (w : world) : world :=
  mkWorld (w_stdin w) (w_stdout w) s (w_errno w) (w_cwd w) (w_chdir w)
          (w_execvp w) (w_heap w) (w_script w) (w_nfork w) (w_children w)
          (w_stack w) (w_wait_end w).
Definition set_errno (e : Z) (w : world) : world :=
  mkWorld (w_stdin w) (w_stdout w) (w_stderr w) e (w_cwd w) (w_chdir w)
          (w_execvp w) (w_heap w) (w_script w) (w_nfork w) (w_children w)
          (w_stack w) (w_wait_end w).
Definition set_cwd (d : string) (w : world) : world :=
  mkWorld (w_stdin w) (w_stdout w) (w_stderr w) (w_errno w) d (w_chdir w)
          (w_execvp w) (w_heap w) (w_script w) (w_nfork w) (w_children w)
          (w_stack w) (w_wait_end w).
Definition set_nfork (n : nat) (w : world) : world :=
  mkWorld (w_stdin w) (w_stdout w) (w_stderr w) (w_errno w) (w_cwd w)
          (w_chdir w) (w_execvp w) (w_heap w) (w_script w) n (w_children w)
          (w_stack w) (w_wait_end w).
Definition set_children (c : Z -> list Z) (w : world) : world :=
  mkWorld (w_stdin w) (w_stdout w) (w_stderr w) (w_errno w) (w_cwd w)
          (w_chdir w) (w_execvp w) (w_heap w) (w_script w) (w_nfork w) c
          (w_stack w) (w_wait_end w).

Definition upd (c : Z -> list Z) (pid : Z) (q : list Z) : Z -> list Z :=
  fun p => if p =? pid then q else c p.

(** *** Outcomes

    A call either returns to its caller, or the process ends inside it
    ([exit]), or its image is replaced ([execvp]), or it never comes back:
    it is blocked in a system call for ever, or it repeats for ever a loop
    whose test cannot change any more. *)

Inductive outcome (A : Type) : Type :=
| Returned (a : A) (w : world)
| Exited (code : Z) (w : world)
| Replaced (file : option string) (argv : list string) (w : world)
| Blocked (w : world).
Arguments Returned {A} a w.
Arguments Exited {A} code w.
Arguments Replaced {A} file argv w.
Arguments Blocked {A} w.

Definition M (A : Type) : Type := world -> outcome A.

Definition ret {A} (a : A) : M A := fun w => Returned a w.

Definition bind {A B} (m : M A) (k : A -> M B) : M B :=
  fun w =>
    match m w with
    | Returned a w' => k a w'
    | Exited c w' => Exited c w'
    | Replaced f v w' => Replaced f v w'
    | Blocked w' => Blocked w'
    end.

(** The world an outcome ends in. *)
Definition final {A} (o : outcome A) : world :=
  match o with
  | Returned _ w | Exited _ w | Replaced _ _ w | Blocked w => w
  end.

(** *** Library and system calls *)

Definition exit {A} (code : Z) : M A := fun w => Exited code w.

Definition printf (s : string) : M unit :=
  fun w => Returned tt (set_stdout (w_stdout w ++ s) w).

Definition fprintf_stderr (s : string) : M unit :=
  fun w => Returned tt (set_stderr (w_stderr w ++ s) w).

Section Libc.
(** The message table of the C library. *)
Variable strerror : Z -> string.

Definition perror_text (msg : string) (errno : Z) : string :=
  msg ++ ": " ++ strerror errno ++ nl.

Definition perror (msg : string) : M unit :=
  fun w => Returned tt (set_stderr (w_stderr w ++ perror_text msg (w_errno w)) w).
End Libc.

Definition chdir (path : string) : M Z :=
  fun w =>
    match w_chdir w (w_cwd w) path with
    | inl d => Returned 0 (set_cwd d w)
    | inr e => Returned (-1) (set_errno e w)
    end.

Definition fork : M Z :=
  fun w =>
    let s := w_script w (w_nfork w) in
    let w1 := set_nfork (S (w_nfork w)) w in
    if fork_ret s <? 0 then Returned (fork_ret s) (set_errno (fork_errno s) w1)
    else if fork_ret s =? 0 then Returned 0 w1
    else Returned (fork_ret s)
           (set_children (upd (w_children w) (fork_ret s) (wait_trace s)) w1).

Definition execvp (file : option string) (argv : list string) : M Z :=
  fun w =>
    match w_execvp w file argv with
    | None => Replaced file argv w
    | Some e => Returned (-1) (set_errno e w)
    end.

(** The value of a local [int] that is read before anything was stored in
    it. *)
Definition indeterminate : M Z :=
  fun w => Returned (w_stack w (w_nfork w)) w.

(** [waitpid(pid, &status, options)] on a child of the process.  [Some st]:
    the call comes back with the next report on the child and stores the
    word [st] in [status].  [None]: it returns -1, sets [errno] and stores
    nothing.  With no report left it blocks for ever or fails, as
    [w_wait_end] tells.  (The shell installs no signal handler, so the call
    is not interrupted while reports are to come.) *)
Definition waitpid (pid : Z) (options : Z) : M (option Z) :=
  fun w =>
    match w_children w pid with
    | st :: q => Returned (Some st) (set_children (upd (w_children w) pid q) w)
    | [] =>
        match w_wait_end w pid with
        | WaitBlocks => Blocked w
        | WaitFails e => Returned None (set_errno e w)
        end
    end.

Definition getline : M (option string) :=
  fun w =>
    let '(r, f) := stream_getline (w_stdin w) in
    let w1 := set_stdin f w in
    match r, f_end (w_stdin w) with
    | None, ReadError e => Returned None (set_errno e w1)
    | _, _ => Returned r w1
    end.

Definition feof_stdin : M bool := fun w => Returned (f_eof (w_stdin w)) w.

Definition sizeof_ptr : Z := 8.

(** [malloc]/[realloc] of [n] pointers: whether a block is obtained. *)
Definition alloc_ptrs (n : Z) : M bool :=
  fun w => Returned (w_heap w (n * sizeof_ptr)) w.

End Sys.

Declare Scope shell_scope.
Notation "x <- m ;; k" := (Sys.bind m (fun x => k))
(at level 61, m at next level, right associativity) : shell_scope.
Notation "m ;; k" := (Sys.bind m (fun _ => k))
(at level 61, right associativity) : shell_scope.

(** ** Facts about string concatenation *)

Module StrFacts.

Lemma append_nil_r (s : string) : s ++ "" = s.
Proof. induction s as [|c s IH]; simpl; [reflexivity | rewrite IH; reflexivity]. Qed.

Lemma append_assoc (a b c : string) : (a ++ b) ++ c = a ++ (b ++ c).
Proof. induction a as [|x a IH]; simpl; [reflexivity | rewrite IH; reflexivity]. Qed.

Lemma append_length (a b : string) :
  String.length (a ++ b) = (String.length a + String.length b)%nat.
Proof. induction a as [|x a IH]; simpl; [reflexivity | rewrite IH; reflexivity]. Qed.

End StrFacts.

(** ** Measures for the loops of the program

    Each loop of [main.c] consumes something finite: [strtok] moves the save
    pointer forward, [waitpid] takes one report from the child's queue. *)

Module Measure.
Import CStr Sys.

Lemma skip_delims_length (delim s : string) :
  (String.length (skip_delims delim s) <= String.length s)%nat.
Proof.
  induction s as [|c s IH]; simpl; [lia|].
  destruct (is_nul c); simpl; [lia|].
  destruct (in_set c delim); simpl; lia.
Qed.

Lemma scan_token_length (delim s : string) :
  (String.length (snd (scan_token delim s)) <= String.length s)%nat.
Proof.
  induction s as [|c s IH]; simpl; [lia|].
  destruct (is_nul c); simpl; [lia|].
  destruct (in_set c delim); simpl; [lia|].
  destruct (scan_token delim s) as [tok save]; simpl in *; lia.
Qed.

Lemma strtok_save_shorter (s delim tok save : string) :
  strtok s delim = Some (tok, save) ->
  (String.length save < String.length s)%nat.
Proof.
  unfold strtok. intros H.
  pose proof (skip_delims_length delim s) as Hs.
  destruct (skip_delims delim s) as [|c rest]; [discriminate|].
  destruct (is_nul c) eqn:Hc; [discriminate|].
  injection H as H.
  pose proof (scan_token_length delim rest) as Hr.
  simpl in H. rewrite Hc in H.
  destruct (in_set c delim).
  - injection H as _ <-. simpl in Hs. lia.
  - destruct (scan_token delim rest) as [t r]. injection H as _ <-.
    simpl in *. lia.
Qed.

(** What is left to do after a [strtok] result. *)
Definition pending_tokens (tk : option (string * string)) : nat :=
  match tk with
  | None => 0
  | Some (_, save) => S (String.length save)
  end.

Lemma strtok_pending (save delim : string) :
  (pending_tokens (strtok save delim) < S (String.length save))%nat.
Proof.
  destruct (strtok save delim) as [[tok save']|] eqn:H; simpl; [|lia].
  apply strtok_save_shorter in H. lia.
Qed.

Lemma waitpid_queue_shorter (pid options status : Z) (w w' : world) :
  waitpid pid options w = Returned (Some status) w' ->
  (List.length (w_children w' pid) < List.length (w_children w pid))%nat.
Proof.
  unfold waitpid. destruct (w_children w pid) as [|st q] eqn:Hq.
  - destruct (w_wait_end w pid); discriminate.
  - intros H. injection H as _ <-. simpl. unfold upd. rewrite Z.eqb_refl. simpl. lia.
Qed.

(** A [waitpid] that failed for want of a child fails again, in the same
    way and in the same world. *)
Lemma waitpid_fails_again (pid options : Z) (w w' : world) :
  waitpid pid options w = Returned None w' ->
  waitpid pid options w' = Returned None w'.
Proof.
  unfold waitpid. destruct (w_children w pid) as [|st q] eqn:Hq; [|discriminate].
  destruct (w_wait_end w pid) as [|e] eqn:He; [discriminate|].
  intros H. injection H as <-. simpl. rewrite Hq, He. reflexivity.
Qed.

End Measure.

(** ** The program *)

Module Shell.
Import CStr WaitStatus Sys StrFacts Measure.
Local Open Scope shell_scope.

(** The two values of the [int] a command hands back to [loop]. *)
Definition Continue : Z := 1.
Definition Stop : Z := 0.

Definition TOKEN_BUFSIZE : Z := 64.

(** [" \t\r\n\a"] *)
Definition TOKEN_DELIM : string :=
  String " " (String "009" (String "013" (String "010" (String "007" EmptyString)))).

(** The [do ... while] of [launch].  [status] is the local of that name:
    what the last successful [waitpid] stored, or what the variable held
    before.  [launch] does not look at the value [waitpid] returns: after a
    failed call it tests the word that is still there.  When that word is
    not terminal the loop calls [waitpid] again, which fails again and
    stores nothing ([waitpid_fails_again]): the loop never ends. *)
Equations? wait_loop (pid : Z) (status : Z) (w : world) : outcome Z
  by wf (List.length (w_children w pid)) lt :=
wait_loop pid status w with inspect (waitpid pid WUNTRACED w) := {
  | exist _ (Returned (Some stored) w') _ =>
      if negb (WIFEXITED stored) && negb (WIFSIGNALED stored)
      then wait_loop pid stored w'
      else Returned stored w';
  | exist _ (Returned None w') _ =>
      if negb (WIFEXITED status) && negb (WIFSIGNALED status)
      then Blocked w'
      else Returned status w';
  | exist _ (Exited c w') _ => Exited c w';
  | exist _ (Replaced f v w') _ => Replaced f v w';
  | exist _ (Blocked w') _ => Blocked w' }.
Proof.
  eapply waitpid_queue_shorter; eassumption.
Qed.

(** The [while (token != NULL)] of [split_line]: [tk] is the result of the
    last [strtok] with the save pointer it left, [tokens] the slots
    0 .. [position]-1 of the array, [bufsize] its capacity.  The two [int]
    counters are integers here: a line has at most one token per two bytes
    ([Splits_count] below), so they stay in range for every line shorter
    than 2^32 - 130 bytes ([split_loop_in_range], [counters_fit]). *)
Equations? split_loop (tk : option (string * string)) (tokens : list string)
    (position bufsize : Z) : M (list string) by wf (pending_tokens tk) lt :=
split_loop None tokens position bufsize := ret tokens;
split_loop (Some (token, save)) tokens position bufsize :=
  let tokens1 := (tokens ++ [token])%list in
  let position1 := position + 1 in
  if position1 >=? bufsize
  then ok <- alloc_ptrs (bufsize + TOKEN_BUFSIZE) ;;
       if ok
       then split_loop (strtok save TOKEN_DELIM) tokens1 position1 (bufsize + TOKEN_BUFSIZE)
       else fprintf_stderr ("Error: Allocation error" ++ nl) ;; exit EXIT_FAILURE
  else split_loop (strtok save TOKEN_DELIM) tokens1 position1 bufsize.
Proof.
  all: apply strtok_pending.
Qed.

Definition split_line (line : string) : M (list string) :=
  ok <- alloc_ptrs TOKEN_BUFSIZE ;;
  (if negb ok
   then fprintf_stderr ("Error: Allocation error" ++ nl) ;; exit EXIT_FAILURE
   else ret tt) ;;
  split_loop (strtok line TOKEN_DELIM) [] 0 TOKEN_BUFSIZE.

Section Program.
Variable strerror : Z -> string.

Definition builtin_str : list string := ["cd"; "help"; "exit"].

Definition num_of_builtins : nat := List.length builtin_str.

Definition cd (args : list string) : M Z :=
  match nth_error args 1 with
  | None => fprintf_stderr "Error: Please specify a directory"
  | Some dir =>
      r <- chdir dir ;;
      if negb (r =? 0)
      then perror strerror "Error: Failed to change directory"
      else ret tt
  end ;;
  ret 1.

Fixpoint for_each {A : Type} (l : list A) (body : A -> M unit) : M unit :=
  match l with
  | [] => ret tt
  | x :: l' => body x ;; for_each l' body
  end.

Definition help (args : list string) : M Z :=
  printf ("The following are builtin commands:" ++ nl) ;;
  for_each (seq 0 num_of_builtins)
    (fun i => printf ("  " ++ nth i builtin_str EmptyString ++ nl)) ;;
  ret 1.

Definition exit_shell (args : list string) : M Z := ret 0.

Definition builtin_func : list (list string -> M Z) := [cd; help; exit_shell].

(** [status] is declared without an initial value: the word it holds
    until a [waitpid] stores one is the environment's. *)
Definition launch (args : list string) : M Z :=
  status <- indeterminate ;;
  pid <- fork ;;
  (if pid =? 0 then
     r <- execvp (hd_error args) args ;;
     (if r =? -1 then perror strerror "Error: Child process failed" else ret tt) ;;
     exit EXIT_FAILURE
   else if pid <? 0 then
     perror strerror "Error: Forking process failed"
   else
     _ <- wait_loop pid status ;; ret tt) ;;
  ret 1.

(** The [for] of [execute]: [table] pairs what is left of [builtin_str] with
    what is left of [builtin_func]; the first name equal to [args[0]]
    selects the function, and past the last one the command is launched. *)
Fixpoint execute_from (table : list (string * (list string -> M Z)))
    (arg0 : string) (args : list string) : M Z :=
  match table with
  | [] => launch args
  | (name, func) :: table' =>
      if strcmp arg0 name =? 0 then func args
      else execute_from table' arg0 args
  end.

Definition execute (args : list string) : M Z :=
  match args with
  | [] => ret 1
  | arg0 :: _ =>
      execute_from (firstn num_of_builtins (combine builtin_str builtin_func))
                   arg0 args
  end.

Definition read_line : M string :=
  r <- getline ;;
  match r with
  | None =>
      eof <- feof_stdin ;;
      if eof then exit EXIT_SUCCESS
      else perror strerror "Error: readline error" ;; exit EXIT_FAILURE
  | Some line => ret line
  end.

(** One pass through the body of [loop]; the result is [status]. *)
Definition loop_body : M Z :=
  printf "> " ;;
  line <- read_line ;;
  args <- split_line line ;;
  execute args.

(** *** Termination of [loop]

    No command reads the input stream, and [read_line] hands a line back
    only after taking at least one byte from it: every pass that comes back
    to the loop test leaves the stream shorter. *)

Definition keeps_stdin {A : Type} (m : M A) : Prop :=
  forall w, w_stdin (final (m w)) = w_stdin w.

Lemma bind_Returned {A B : Type} (m : M A) (k : A -> M B) w b w' :
  bind m k w = Returned b w' ->
  exists a w1, m w = Returned a w1 /\ k a w1 = Returned b w'.
Proof.
  unfold bind. destruct (m w) as [a w1| | |] eqn:E; try discriminate.
  intros H. exists a, w1. split; [reflexivity | exact H].
Qed.

Lemma keeps_stdin_bind {A B : Type} (m : M A) (k : A -> M B) :
  keeps_stdin m -> (forall a, keeps_stdin (k a)) -> keeps_stdin (bind m k).
Proof.
  intros Hm Hk w. unfold bind. specialize (Hm w).
  destruct (m w) as [a w1| | |]; simpl in *; try assumption.
  rewrite Hk. assumption.
Qed.

Lemma keeps_stdin_ret {A : Type} (a : A) : keeps_stdin (ret a).
Proof. intros w. reflexivity. Qed.

Lemma keeps_stdin_exit {A : Type} (c : Z) : keeps_stdin (@exit A c).
Proof. intros w. reflexivity. Qed.

Lemma keeps_stdin_printf (s : string) : keeps_stdin (printf s).
Proof. intros w. reflexivity. Qed.

Lemma keeps_stdin_fprintf (s : string) : keeps_stdin (fprintf_stderr s).
Proof. intros w. reflexivity. Qed.

Lemma keeps_stdin_perror (s : string) : keeps_stdin (perror strerror s).
Proof. intros w. reflexivity. Qed.

Lemma keeps_stdin_alloc (n : Z) : keeps_stdin (alloc_ptrs n).
Proof. intros w. reflexivity. Qed.

Lemma keeps_stdin_chdir (p : string) : keeps_stdin (chdir p).
Proof. intros w. unfold chdir. destruct (w_chdir w (w_cwd w) p); reflexivity. Qed.

Lemma keeps_stdin_fork : keeps_stdin fork.
Proof.
  intros w. unfold fork.
  destruct (fork_ret _ <? 0); [reflexivity|].
  destruct (fork_ret _ =? 0); reflexivity.
Qed.

Lemma keeps_stdin_execvp (f : option string) (v : list string) :
  keeps_stdin (execvp f v).
Proof. intros w. unfold execvp. destruct (w_execvp w f v); reflexivity. Qed.

Lemma keeps_stdin_waitpid (pid o : Z) : keeps_stdin (waitpid pid o).
Proof.
  intros w. unfold waitpid.
  destruct (w_children w pid); [destruct (w_wait_end w pid)|]; reflexivity.
Qed.

Lemma keeps_stdin_wait_loop (pid status : Z) : keeps_stdin (wait_loop pid status).
Proof.
  intros w. funelim (wait_loop pid status w);
    match goal with E : waitpid _ _ _ = _ |- _ =>
      pose proof (keeps_stdin_waitpid pid WUNTRACED w) as K; rewrite E in K
    end; simpl in *; try assumption.
  - destruct (negb (WIFEXITED stored) && negb (WIFSIGNALED stored)); simpl.
    + match goal with IH : w_stdin (final (wait_loop _ _ _)) = _ |- _ => rewrite IH end.
      assumption.
    + assumption.
  - destruct (negb (WIFEXITED status) && negb (WIFSIGNALED status)); simpl; assumption.
Qed.

Lemma keeps_stdin_split_loop tk tokens position bufsize :
  keeps_stdin (split_loop tk tokens position bufsize).
Proof.
  funelim (split_loop tk tokens position bufsize); [|apply keeps_stdin_ret].
  intros w. destruct (position + 1 >=? bufsize).
  - unfold bind, alloc_ptrs.
    destruct (w_heap w _); [|reflexivity].
    match goal with IH : bool -> world -> keeps_stdin _ |- _ => apply (IH true w) end.
  - match goal with IH : world -> keeps_stdin _ |- _ => apply (IH w) end.
Qed.

Lemma keeps_stdin_split_line (line : string) : keeps_stdin (split_line line).
Proof.
  unfold split_line.
  apply keeps_stdin_bind; [apply keeps_stdin_alloc|]. intros ok.
  apply keeps_stdin_bind; [|intros _; apply keeps_stdin_split_loop].
  destruct (negb ok); [|apply keeps_stdin_ret].
  apply keeps_stdin_bind; [apply keeps_stdin_fprintf|].
  intros _. apply keeps_stdin_exit.
Qed.

Lemma keeps_stdin_cd (args : list string) : keeps_stdin (cd args).
Proof.
  unfold cd. apply keeps_stdin_bind; [|intros _; apply keeps_stdin_ret].
  destruct (nth_error args 1); [|apply keeps_stdin_fprintf].
  apply keeps_stdin_bind; [apply keeps_stdin_chdir|]. intros r.
  destruct (negb (r =? 0)); [apply keeps_stdin_perror | apply keeps_stdin_ret].
Qed.

Lemma keeps_stdin_for_each {A : Type} (l : list A) (body : A -> M unit) :
  (forall x, keeps_stdin (body x)) -> keeps_stdin (for_each l body).
Proof.
  intros Hb. induction l as [|x l IH]; simpl; [apply keeps_stdin_ret|].
  apply keeps_stdin_bind; [apply Hb | intros _; exact IH].
Qed.

Lemma keeps_stdin_help (args : list string) : keeps_stdin (help args).
Proof.
  unfold help. apply keeps_stdin_bind; [apply keeps_stdin_printf|]. intros _.
  apply keeps_stdin_bind; [|intros _; apply keeps_stdin_ret].
  apply keeps_stdin_for_each. intros i. apply keeps_stdin_printf.
Qed.

Lemma keeps_stdin_launch (args : list string) : keeps_stdin (launch args).
Proof.
  unfold launch. apply keeps_stdin_bind; [intros w; reflexivity|]. intros status.
  apply keeps_stdin_bind; [apply keeps_stdin_fork|]. intros pid.
  apply keeps_stdin_bind; [|intros _; apply keeps_stdin_ret].
  destruct (pid =? 0).
  - apply keeps_stdin_bind; [apply keeps_stdin_execvp|]. intros r.
    apply keeps_stdin_bind; [|intros _; apply keeps_stdin_exit].
    destruct (r =? -1); [apply keeps_stdin_perror | apply keeps_stdin_ret].
  - destruct (pid <? 0); [apply keeps_stdin_perror|].
    apply keeps_stdin_bind; [apply keeps_stdin_wait_loop|].
    intros _. apply keeps_stdin_ret.
Qed.

Lemma keeps_stdin_execute (args : list string) : keeps_stdin (execute args).
Proof.
  unfold execute. destruct args as [|arg0 rest]; [apply keeps_stdin_ret|].
  generalize (arg0 :: rest) as args.
  unfold num_of_builtins, builtin_str, builtin_func. simpl. intros args.
  destruct (strcmp arg0 "cd" =? 0); [apply keeps_stdin_cd|].
  destruct (strcmp arg0 "help" =? 0); [apply keeps_stdin_help|].
  destruct (strcmp arg0 "exit" =? 0); [apply keeps_stdin_ret|].
  apply keeps_stdin_launch.
Qed.

Lemma take_line_shorter (s l r : string) :
  take_line s = Some (l, r) -> (String.length r < String.length s)%nat.
Proof.
  revert l r. induction s as [|c s IH]; simpl; intros l r H; [discriminate|].
  destruct (Ascii.eqb c newline).
  - injection H as _ <-. lia.
  - destruct (take_line s) as [[l' r']|]; [|discriminate].
    injection H as _ <-. specialize (IH _ _ eq_refl). lia.
Qed.

Lemma stream_getline_shorter (f f' : FILE) (line : string) :
  stream_getline f = (Some line, f') ->
  (String.length (f_pending f') < String.length (f_pending f))%nat.
Proof.
  unfold stream_getline.
  destruct (take_line (f_pending f)) as [[l r]|] eqn:E.
  - intros H. injection H as _ <-. simpl. eapply take_line_shorter; eassumption.
  - destruct (f_pending f) as [|c s]; [discriminate|].
    intros H. injection H as _ <-. unfold hit_end.
    destruct (f_end f); simpl; lia.
Qed.

Lemma read_line_shorter (w w' : world) (line : string) :
  read_line w = Returned line w' ->
  (String.length (f_pending (w_stdin w')) < String.length (f_pending (w_stdin w)))%nat.
Proof.
  unfold read_line, bind, getline.
  destruct (stream_getline (w_stdin w)) as [r f] eqn:E.
  destruct r as [l|].
  - intros H.
    unfold ret in H. injection H as _ <-.
    simpl. eapply stream_getline_shorter; eassumption.
  - destruct (f_end (w_stdin w)); simpl; unfold feof_stdin; simpl;
      destruct (f_eof f); simpl; discriminate.
Qed.

Lemma loop_body_shorter (w w' : world) (status : Z) :
  loop_body w = Returned status w' ->
  (String.length (f_pending (w_stdin w')) < String.length (f_pending (w_stdin w)))%nat.
Proof.
  unfold loop_body. intros H.
  apply bind_Returned in H as (u & w1 & H1 & H).
  apply bind_Returned in H as (line & w2 & H2 & H).
  apply bind_Returned in H as (args & w3 & H3 & H).
  pose proof (keeps_stdin_printf "> " w) as K1. rewrite H1 in K1.
  pose proof (keeps_stdin_split_line line w2) as K3. rewrite H3 in K3.
  pose proof (keeps_stdin_execute args w3) as K4. rewrite H in K4.
  apply read_line_shorter in H2. simpl in *.
  rewrite K4, K3, <- K1. exact H2.
Qed.

(** [loop]: the [do ... while (status)] around [loop_body]. *)
Equations? loop (w : world) : outcome unit
  by wf (String.length (f_pending (w_stdin w))) lt :=
loop w with inspect (loop_body w) := {
  | exist _ (Returned status w') _ =>
      if negb (status =? 0) then loop w' else Returned tt w';
  | exist _ (Exited c w') _ => Exited c w';
  | exist _ (Replaced f v w') _ => Replaced f v w';
  | exist _ (Blocked w') _ => Blocked w' }.
Proof.
  eapply loop_body_shorter; eassumption.
Qed.

(** The process started at [main]: run [loop]; when it comes back [main]
    returns [EXIT_SUCCESS] to the C start-up code, which ends the process
    with that status as a call of [exit] does. *)
Definition main : M unit :=
  loop ;; exit EXIT_SUCCESS.

(** ** What the properties are stated with *)

(** A status word reports a terminal state when the child has exited or was
    killed by a signal. *)
Definition terminal (status : Z) : bool := WIFEXITED status || WIFSIGNALED status.


(** What [help] writes. *)
Definition help_text : string :=
  "The following are builtin commands:" ++ nl ++
  "  cd" ++ nl ++ "  help" ++ nl ++ "  exit" ++ nl.

(** The three builtin names and nothing more, one per line. *)
Definition names_only : string :=
  "cd" ++ nl ++ "help" ++ nl ++ "exit" ++ nl.

(** Dispatching [help] in [w] yields [Continue] and writes exactly the
    three names. *)
Definition help_writes_names_only (w : world) : Prop :=
  exists w', execute ["help"] w = Returned Continue w'
             /\ w_stdout w' = w_stdout w ++ names_only.

(** The five delimiters: space, tab, carriage return, newline, bell. *)
Definition is_delim (c : ascii) : bool :=
  Ascii.eqb c " " || Ascii.eqb c "009" || Ascii.eqb c "013"
  || Ascii.eqb c "010" || Ascii.eqb c "007".

Fixpoint all_chars (p : ascii -> bool) (s : string) : bool :=
  match s with
  | EmptyString => true
  | String c r => p c && all_chars p r
  end.

Definition delimiter_run (s : string) : bool := all_chars is_delim s.

Definition delimiter_free (s : string) : bool :=
  all_chars (fun c => negb (is_delim c)) s.

(** A string at which a token can end: the end of the line, or a delimiter. *)
Definition token_end (s : string) : Prop :=
  match s with
  | EmptyString => True
  | String c _ => is_delim c = true
  end.

(** Splitting on maximal runs of delimiters, as the specification words it:
    a line of delimiters only has no token; otherwise the line is a run of
    delimiters, possibly empty, then a token, which is a non-empty string
    free of delimiters that stops at a delimiter or at the end of the line,
    then the rest of the line, split the same way. *)
Inductive Splits : string -> list string -> Prop :=
| Splits_nil (d : string) :
    delimiter_run d = true -> Splits d []
| Splits_cons (d tok rest : string) (toks : list string) :
    delimiter_run d = true ->
    tok <> "" ->
    delimiter_free tok = true ->
    token_end rest ->
    Splits rest toks ->
    Splits (d ++ tok ++ rest) (tok :: toks).

(** The tokens that successive calls of [strtok] deliver, from the result
    of one call on. *)
Inductive Strtoks : option (string * string) -> list string -> Prop :=
| Strtoks_end : Strtoks None []
| Strtoks_next (tok save : string) (toks : list string) :
    Strtoks (strtok save TOKEN_DELIM) toks ->
    Strtoks (Some (tok, save)) (tok :: toks).

(** The beginning of a line up to its first delimiter. *)
Fixpoint up_to_delim (s : string) : string :=
  match s with
  | EmptyString => EmptyString
  | String c r => if is_delim c then EmptyString else String c (up_to_delim r)
  end.

Definition nul_free (s : string) : bool := all_chars (fun c => negb (is_nul c)) s.

(** A well-formed line holds no NUL byte and starts with its command
    name: it is not empty and its first byte is not a delimiter. *)
Definition well_formed (line : string) : bool :=
  nul_free line &&
  match line with
  | EmptyString => false
  | String c _ => negb (is_delim c)
  end.

(** The tokenizer splits the line itself: the claim C8 as worded, at one
    line. *)
Definition splits_the_line (line : string) (w : world) : Prop :=
  exists tokens, split_line line w = Returned tokens w /\ Splits line tokens.

(** The largest [int]. *)
Definition INT_MAX : Z := 2147483647.

(** The allocator serves every request for an array of pointers whose
    length an [int] can hold. *)
Definition serves_int_arrays (w : world) : Prop :=
  forall n, 0 < n <= INT_MAX -> w_heap w (n * sizeof_ptr) = true.

(** A line short enough for the two [int] counters of [split_line]: a
    line has at most one token per two bytes, and [bufsize] is never more
    than [TOKEN_BUFSIZE] ahead of [position]. *)
Definition counters_fit (line : string) : Prop :=
  Z.of_nat (String.length line) < 2 ^ 32 - 130.

(** Whitespace normalization of a line: the delimiter runs at both ends
    are dropped and every run between two other characters becomes one
    space.  [started] tells that a character was already written, [gap]
    that delimiters were met since. *)
Fixpoint squeeze (started gap : bool) (s : string) : string :=
  match s with
  | EmptyString => EmptyString
  | String c r =>
      if is_delim c then squeeze started true r
      else (if started && gap then " " else "") ++ String c (squeeze true false r)
  end.

Definition normalize (s : string) : string := squeeze false false s.

(** Every token preceded by a space. *)
Fixpoint spaced (toks : list string) : string :=
  match toks with
  | [] => EmptyString
  | t :: rest => " " ++ t ++ spaced rest
  end.

(** Where a run of characters that satisfy [p] stops. *)
Definition stops (p : ascii -> bool) (s : string) : Prop :=
  match s with
  | EmptyString => True
  | String c _ => p c = false
  end.

(** ** Properties of the process launcher *)

Lemma stopped_low_bits (status : Z) :
  WIFSTOPPED status = true -> Z.land status 127 = 127.
Proof.
  unfold WIFSTOPPED. intros H. apply Z.eqb_eq in H.
  change 127 with (Z.land 255 127) at 1.
  rewrite Z.land_assoc, H. reflexivity.
Qed.

Lemma stopped_not_terminal (status : Z) :
  WIFSTOPPED status = true -> terminal status = false.
Proof.
  intros H. apply stopped_low_bits in H.
  unfold terminal, WIFEXITED, WIFSIGNALED, WTERMSIG. rewrite H. reflexivity.
Qed.




Lemma loop_test_terminal (status : Z) :
  negb (WIFEXITED status) && negb (WIFSIGNALED status) = negb (terminal status).
Proof. unfold terminal. symmetry. apply negb_orb. Qed.

Lemma wait_loop_step (pid status : Z) (w : world) :
  wait_loop pid status w =
    match waitpid pid WUNTRACED w with
    | Returned (Some stored) w' =>
        if negb (WIFEXITED stored) && negb (WIFSIGNALED stored)
        then wait_loop pid stored w'
        else Returned stored w'
    | Returned None w' =>
        if negb (WIFEXITED status) && negb (WIFSIGNALED status)
        then Blocked w'
        else Returned status w'
    | Exited c w' => Exited c w'
    | Replaced f v w' => Replaced f v w'
    | Blocked w' => Blocked w'
    end.
Proof.
  funelim (wait_loop pid status w);
    match goal with E : waitpid _ _ _ = _ |- _ => rewrite E end; reflexivity.
Qed.

(** With no report left the wait blocks, or [waitpid] fails and the test
    reads the word that [status] still holds. *)
Lemma wait_loop_nil (pid status : Z) (w : world) :
  w_children w pid = [] ->
  wait_loop pid status w =
    match w_wait_end w pid with
    | WaitBlocks => Blocked w
    | WaitFails e =>
        if terminal status then Returned status (set_errno e w)
        else Blocked (set_errno e w)
    end.
Proof.
  intros Hq. rewrite wait_loop_step. unfold waitpid. rewrite Hq.
  destruct (w_wait_end w pid); [reflexivity|].
  rewrite loop_test_terminal. destruct (terminal status); reflexivity.
Qed.

Lemma wait_loop_cons (pid status : Z) (w : world) (st : Z) (q : list Z) :
  w_children w pid = st :: q ->
  wait_loop pid status w =
    if terminal st
    then Returned st (set_children (upd (w_children w) pid q) w)
    else wait_loop pid st (set_children (upd (w_children w) pid q) w).
Proof.
  intros Hq. rewrite wait_loop_step. unfold waitpid. rewrite Hq.
  rewrite loop_test_terminal. destruct (terminal st); reflexivity.
Qed.


Lemma upd_same (c : Z -> list Z) (pid : Z) (q : list Z) : upd c pid q pid = q.
Proof. unfold upd. rewrite Z.eqb_refl. reflexivity. Qed.


(** While the words tested are not terminal the wait goes on; when the
    reports run out it never comes back, whether [waitpid] blocks or
    fails. *)
Lemma wait_loop_blocks (pid : Z) (q : list Z) :
  forall (status : Z) (w : world),
  w_children w pid = q ->
  Forall (fun x => terminal x = false) q ->
  terminal status = false ->
  exists w', wait_loop pid status w = Blocked w' /\ w_children w' pid = [].
Proof.
  induction q as [|x q IH]; intros status w Hq Hall Hstatus.
  - rewrite (wait_loop_nil _ _ _ Hq), Hstatus.
    destruct (w_wait_end w pid); eexists; (split; [reflexivity | exact Hq]).
  - inversion Hall as [|? ? Hx Hall']; subst.
    rewrite (wait_loop_cons _ _ _ _ _ Hq), Hx.
    apply IH; [simpl; apply upd_same | assumption | exact Hx].
Qed.

(** A wait that came back either saw a terminal report, after
    non-terminal ones only; or it saw no report at all: [waitpid] failed at
    once and the word that [status] held before happened to be terminal. *)
Lemma wait_loop_returned (pid : Z) (q : list Z) :
  forall (status : Z) (w w' : world) (st : Z),
  w_children w pid = q ->
  wait_loop pid status w = Returned st w' ->
  (exists pre post, q = (pre ++ st :: post)%list
                    /\ Forall (fun x => terminal x = false) pre
                    /\ terminal st = true
                    /\ w_children w' pid = post)
  \/ (q = [] /\ st = status /\ terminal status = true
      /\ exists e, w_wait_end w pid = WaitFails e /\ w' = set_errno e w).
Proof.
  induction q as [|x q IH]; intros status w w' st Hq Hret.
  - rewrite (wait_loop_nil _ _ _ Hq) in Hret. right.
    destruct (w_wait_end w pid) as [|e]; [discriminate|].
    destruct (terminal status) eqn:Hs; [|discriminate].
    injection Hret as <- <-. repeat split. exists e. split; reflexivity.
  - rewrite (wait_loop_cons _ _ _ _ _ Hq) in Hret. left.
    destruct (terminal x) eqn:Hx.
    + injection Hret as <- <-. exists [], q. simpl.
      repeat split; [constructor | exact Hx | apply upd_same].
    + apply IH in Hret; [|simpl; apply upd_same].
      destruct Hret as [(pre & post & -> & Hpre & Hst & Hpost) | (_ & -> & Habs & _)];
        [|congruence].
      exists (x :: pre), post. simpl.
      repeat split; [constructor; assumption | assumption | assumption].
Qed.

Lemma launch_unfold_fork (args : list string) (w : world) :
  launch args w =
    let s := w_script w (w_nfork w) in
    let w1 := set_nfork (S (w_nfork w)) w in
    if fork_ret s <? 0 then
      Returned 1 (set_stderr (w_stderr w ++ perror_text strerror "Error: Forking process failed" (fork_errno s))
                    (set_errno (fork_errno s) w1))
    else if fork_ret s =? 0 then
      match w_execvp w (hd_error args) args with
      | None => Replaced (hd_error args) args w1
      | Some e =>
          Exited EXIT_FAILURE
            (set_stderr (w_stderr w ++ perror_text strerror "Error: Child process failed" e)
               (set_errno e w1))
      end
    else
      match wait_loop (fork_ret s) (w_stack w (w_nfork w))
              (set_children (upd (w_children w) (fork_ret s) (wait_trace s)) w1) with
      | Returned _ w' => Returned 1 w'
      | Exited c w' => Exited c w'
      | Replaced f v w' => Replaced f v w'
      | Blocked w' => Blocked w'
      end.
Proof.
  unfold launch, bind, indeterminate, fork. cbv zeta.
  destruct (Z.ltb_spec (fork_ret (w_script w (w_nfork w))) 0) as [Hneg|Hnn].
  - destruct (Z.eqb_spec (fork_ret (w_script w (w_nfork w))) 0) as [E|_]; [lia|].
    destruct (Z.ltb_spec (fork_ret (w_script w (w_nfork w))) 0); [|lia]. reflexivity.
  - destruct (Z.eqb_spec (fork_ret (w_script w (w_nfork w))) 0) as [E|Hnz].
    + simpl. unfold execvp. simpl.
      destruct (w_execvp w (hd_error args) args); reflexivity.
    + destruct (Z.eqb_spec (fork_ret (w_script w (w_nfork w))) 0) as [|_]; [contradiction|].
      destruct (Z.ltb_spec (fork_ret (w_script w (w_nfork w))) 0); [lia|].
      destruct (wait_loop _ _ _); reflexivity.
Qed.


(** C2.  In the child ([fork] returned 0): when [execvp] fails the child
    writes the failure to the diagnostic stream and exits with
    [EXIT_FAILURE], which is not zero; when it succeeds the image is
    replaced, with the argument vector as given.  In neither case does
    [launch] return: the code after the child branch is never reached. *)
Theorem child_never_returns (args : list string) (w : world) :
  fork_ret (w_script w (w_nfork w)) = 0 ->
  let w1 := set_nfork (S (w_nfork w)) w in
  (forall e, w_execvp w (hd_error args) args = Some e ->
     launch args w =
       Exited EXIT_FAILURE
         (set_stderr (w_stderr w ++ perror_text strerror "Error: Child process failed" e)
            (set_errno e w1)))
  /\ (w_execvp w (hd_error args) args = None ->
      launch args w = Replaced (hd_error args) args w1)
  /\ EXIT_FAILURE <> 0
  /\ (forall a w', launch args w <> Returned a w').
Proof.
  intros H0. cbv zeta. rewrite launch_unfold_fork. cbv zeta. rewrite H0. simpl.
  repeat split.
  - intros e He. rewrite He. reflexivity.
  - intros He. rewrite He. reflexivity.
  - discriminate.
  - intros a w'. destruct (w_execvp w (hd_error args) args); discriminate.
Qed.

(** In the parent ([fork] returned a pid): a stopped status is not a
    terminal one, and once a stopped status is the last word stored
    [launch] does not come back; a terminal report that follows
    non-terminal ones ends the wait; and when [launch] has returned, either
    such a report was taken, or no report was taken at all and the test
    read the word that the local [status] held from the start. *)
Lemma launch_wait_outcomes (args : list string) (w : world) :
  let s := w_script w (w_nfork w) in
  0 < fork_ret s ->
  (forall st, WIFSTOPPED st = true -> WIFEXITED st = false /\ WIFSIGNALED st = false)
  /\ (forall x q,
        wait_trace s = x :: q ->
        Forall (fun x => WIFSTOPPED x = true) (x :: q) ->
        exists w', launch args w = Blocked w')
  /\ (forall a w', launch args w = Returned a w' ->
      (exists pre st post,
         wait_trace s = (pre ++ st :: post)%list
         /\ Forall (fun x => WIFEXITED x = false /\ WIFSIGNALED x = false) pre
         /\ (WIFEXITED st = true \/ WIFSIGNALED st = true)
         /\ w_children w' (fork_ret s) = post)
      \/ (wait_trace s = []
          /\ terminal (w_stack w (w_nfork w)) = true
          /\ exists e, w_wait_end w (fork_ret s) = WaitFails e)).
Proof.
  cbv zeta. intros Hpos. split; [|split].
  - intros st Hst. apply stopped_not_terminal in Hst. apply orb_false_elim in Hst. exact Hst.
  - intros x q Htrace Hall. rewrite launch_unfold_fork. cbv zeta.
    destruct (Z.ltb_spec (fork_ret (w_script w (w_nfork w))) 0); [lia|].
    destruct (Z.eqb_spec (fork_ret (w_script w (w_nfork w))) 0); [lia|].
    inversion Hall as [|? ? Hx Hq]; subst.
    apply stopped_not_terminal in Hx.
    match goal with |- context [wait_loop ?pid ?st0 ?w1] =>
      rewrite (wait_loop_cons pid st0 w1 x q)
        by (simpl; rewrite upd_same; exact Htrace);
      rewrite Hx;
      match goal with |- context [wait_loop pid x ?w2] =>
        destruct (wait_loop_blocks pid q x w2) as (w' & Hw & _);
          [simpl; apply upd_same
          |eapply Forall_impl; [|exact Hq]; intros st; apply stopped_not_terminal
          |exact Hx
          |rewrite Hw; exists w'; reflexivity]
      end
    end.
  - intros a w'. rewrite launch_unfold_fork. cbv zeta.
    destruct (Z.ltb_spec (fork_ret (w_script w (w_nfork w))) 0); [lia|].
    destruct (Z.eqb_spec (fork_ret (w_script w (w_nfork w))) 0); [lia|].
    destruct (wait_loop _ _ _) as [st w2| | |] eqn:Hw; try discriminate.
    intros Hret. injection Hret as _ <-.
    eapply wait_loop_returned in Hw; [|simpl; apply upd_same].
    destruct Hw as [(pre & post & Htrace & Hpre & Hst & Hpost)
                   | (Htrace & _ & Hjunk & e & He & _)].
    + left. exists pre, st, post. repeat split; try assumption.
      * eapply Forall_impl; [|exact Hpre]. intros x Hx. apply orb_false_elim in Hx. exact Hx.
      * apply orb_true_iff in Hst. exact Hst.
    + right. split; [exact Htrace|]. split; [exact Hjunk|]. exists e. exact He.
Qed.

(** ** Properties of the builtins and of the dispatch *)

(** C4.  An argument vector that starts with [exit] is dispatched to
    [exit_shell]: the name is neither of the two entries before it in the
    table and equals the third.  [exit_shell] yields [Stop] whatever
    follows the name, and leaves the world as it was. *)
Theorem exit_yields_Stop (rest : list string) (w : world) :
  execute ("exit" :: rest) w = Returned Stop w
  /\ exit_shell ("exit" :: rest) w = Returned Stop w
  /\ strcmp "exit" "exit" = 0.
Proof.
  assert (strcmp "exit" "cd" <> 0 /\ strcmp "exit" "help" <> 0) as [Hcd Hhelp]
    by (split; discriminate).
  apply Z.eqb_neq in Hcd, Hhelp.
  unfold execute, num_of_builtins, builtin_str, builtin_func.
  cbn [List.length firstn combine execute_from].
  rewrite Hcd, Hhelp. repeat split.
Qed.

(** C6, as the code has it.  Dispatching [help] yields [Continue] and
    appends to the standard output a heading line followed by the three
    builtin names [cd], [help], [exit], each on a line of its own after two
    spaces; nothing else in the world changes. *)
Theorem help_prints_heading_and_names (rest : list string) (w : world) :
  execute ("help" :: rest) w =
    Returned Continue (set_stdout (w_stdout w ++ help_text) w).
Proof.
  unfold execute, num_of_builtins, builtin_str, builtin_func. simpl.
  unfold help, bind, printf, num_of_builtins, builtin_str. simpl.
  unfold bind, printf, ret, Continue. simpl. unfold set_stdout at 1. simpl.
  unfold set_stdout. do 2 f_equal.
  repeat rewrite append_assoc. reflexivity.
Qed.

(** C7.  [cd] is atomic on error and never stops the shell.  Without a
    path it writes its complaint to the diagnostic stream and changes
    nothing else.  With a path that the system refuses it writes the
    failure, and the working directory is the one before the call.  And
    whatever its arguments, it yields [Continue]. *)
Theorem cd_atomic_on_error (w : world) :
  execute ["cd"] w =
    Returned Continue
      (set_stderr (w_stderr w ++ "Error: Please specify a directory") w)
  /\ (forall p rest e,
        w_chdir w (w_cwd w) p = inr e ->
        execute ("cd" :: p :: rest) w =
          Returned Continue
            (set_stderr (w_stderr w ++ perror_text strerror "Error: Failed to change directory" e)
               (set_errno e w))
        /\ w_cwd (final (execute ("cd" :: p :: rest) w)) = w_cwd w)
  /\ (forall rest, exists w', execute ("cd" :: rest) w = Returned Continue w').
Proof.
  split; [reflexivity|]. split.
  - intros p rest e He.
    assert (execute ("cd" :: p :: rest) w =
            Returned Continue
              (set_stderr (w_stderr w ++ perror_text strerror "Error: Failed to change directory" e)
                 (set_errno e w))) as Hx.
    { unfold execute, num_of_builtins, builtin_str, builtin_func. simpl.
      unfold cd, bind, chdir. simpl. rewrite He. reflexivity. }
    split; [exact Hx|]. rewrite Hx. reflexivity.
  - intros rest.
    unfold execute, num_of_builtins, builtin_str, builtin_func. simpl.
    unfold cd, bind. destruct (nth_error ("cd" :: rest) 1) as [p|].
    + unfold chdir. destruct (w_chdir w (w_cwd w) p); simpl; eexists; reflexivity.
    + simpl. eexists; reflexivity.
Qed.

(** ** Properties of line acquisition and of the loop *)

Lemma loop_step (w : world) :
  loop w =
    match loop_body w with
    | Returned status w' => if negb (status =? 0) then loop w' else Returned tt w'
    | Exited c w' => Exited c w'
    | Replaced f v w' => Replaced f v w'
    | Blocked w' => Blocked w'
    end.
Proof.
  funelim (loop w);
    match goal with E : loop_body _ = _ |- _ => rewrite E end; reflexivity.
Qed.

Lemma take_line_nonempty (s l r : string) : take_line s = Some (l, r) -> l <> "".
Proof.
  destruct s as [|c s]; simpl; [discriminate|].
  destruct (Ascii.eqb c newline).
  - intros H. injection H as <- _. discriminate.
  - destruct (take_line s) as [[l' r']|]; [|discriminate].
    intros H. injection H as <- _. discriminate.
Qed.

Lemma read_line_at_eof (w : world) :
  f_pending (w_stdin w) = "" ->
  f_end (w_stdin w) = AtEOF ->
  read_line w =
    Exited EXIT_SUCCESS (set_stdin (mkFILE "" AtEOF true (f_error (w_stdin w))) w).
Proof.
  intros Hp He. unfold read_line, bind, getline, stream_getline, hit_end.
  rewrite Hp, He. reflexivity.
Qed.

Lemma read_line_partial (w : world) (line : string) :
  f_pending (w_stdin w) = line -> line <> "" -> take_line line = None ->
  f_end (w_stdin w) = AtEOF ->
  read_line w =
    Returned line (set_stdin (mkFILE "" AtEOF true (f_error (w_stdin w))) w).
Proof.
  intros Hp Hne Hnl He. unfold read_line, bind, getline, stream_getline, hit_end.
  rewrite Hp, Hnl, He. destruct line as [|c l]; [contradiction|]. reflexivity.
Qed.

(** C5.  [read_line] ends in one of three ways: it returns a line that is
    not empty; or the process exits with [EXIT_SUCCESS] and nothing is
    written to the diagnostic stream; or the process exits with
    [EXIT_FAILURE] after the error is written there.  At the end of the
    input the exit is the successful one, and [loop] ends there with
    nothing done but the prompt: no command is dispatched.  On a read error
    the exit is the failing one, after the report.  [EXIT_SUCCESS] is 0 and
    [EXIT_FAILURE] is not. *)
Theorem read_line_failure_outcomes (w : world) :
  ((exists line w', read_line w = Returned line w' /\ line <> "")
   \/ (exists w', read_line w = Exited EXIT_SUCCESS w' /\ w_stderr w' = w_stderr w)
   \/ (exists w' e, read_line w = Exited EXIT_FAILURE w'
                    /\ w_stderr w' =
                         w_stderr w ++ perror_text strerror "Error: readline error" e))
  /\ (f_pending (w_stdin w) = "" -> f_end (w_stdin w) = AtEOF ->
      let f' := mkFILE "" AtEOF true (f_error (w_stdin w)) in
      read_line w = Exited EXIT_SUCCESS (set_stdin f' w)
      /\ loop w = Exited EXIT_SUCCESS (set_stdin f' (set_stdout (w_stdout w ++ "> ") w)))
  /\ (forall e,
        f_pending (w_stdin w) = "" -> f_end (w_stdin w) = ReadError e ->
        f_eof (w_stdin w) = false ->
        read_line w =
          Exited EXIT_FAILURE
            (set_stderr (w_stderr w ++ perror_text strerror "Error: readline error" e)
               (set_errno e (set_stdin (mkFILE "" (ReadError e) false true) w))))
  /\ EXIT_SUCCESS = 0 /\ EXIT_FAILURE <> 0.
Proof.
  split; [|split; [|split; [|split; [reflexivity | discriminate]]]].
  - unfold read_line, bind, getline.
    destruct (stream_getline (w_stdin w)) as [r f] eqn:E.
    destruct r as [l|].
    + left. exists l, (set_stdin f w). split.
      * destruct (f_end (w_stdin w)); reflexivity.
      * unfold stream_getline in E.
        destruct (take_line (f_pending (w_stdin w))) as [[l' r']|] eqn:Ht.
        -- injection E as <- _. eapply take_line_nonempty; eassumption.
        -- destruct (f_pending (w_stdin w)); [discriminate|].
           injection E as <- _. discriminate.
    + right. destruct (f_end (w_stdin w)) as [|e]; unfold feof_stdin; simpl;
        destruct (f_eof f); simpl.
      * left. eexists. split; reflexivity.
      * right. eexists. exists (w_errno w). split; reflexivity.
      * left. eexists. split; reflexivity.
      * right. eexists. exists e. split; reflexivity.
  - intros Hp He. cbv zeta. split; [apply read_line_at_eof; assumption|].
    rewrite loop_step. unfold loop_body, bind. simpl.
    rewrite read_line_at_eof by assumption. reflexivity.
  - intros e Hp He Hf. unfold read_line, bind, getline, stream_getline, hit_end.
    rewrite Hp, He. simpl. unfold feof_stdin. simpl. rewrite Hf. reflexivity.
Qed.

(** C10.  When the input ends with a line that has no newline, [read_line]
    returns that line, and the pass through [loop] tokenizes and dispatches
    it like any other; the stream is then at its end.  The successful exit
    is taken by the next [read_line], which finds no byte at all: if the
    command yields a nonzero status, [loop] prompts once more and the
    process exits with [EXIT_SUCCESS]; if it yields 0, [loop] returns. *)
Theorem final_line_without_newline (w : world) (line : string) :
  f_pending (w_stdin w) = line ->
  line <> "" ->
  take_line line = None ->
  f_end (w_stdin w) = AtEOF ->
  let f' := mkFILE "" AtEOF true (f_error (w_stdin w)) in
  read_line w = Returned line (set_stdin f' w)
  /\ loop_body w =
       (args <- split_line line ;; execute args)
         (set_stdin f' (set_stdout (w_stdout w ++ "> ") w))
  /\ read_line (set_stdin f' w) = Exited EXIT_SUCCESS (set_stdin f' w)
  /\ (forall status w2,
        loop_body w = Returned status w2 -> status <> 0 ->
        loop w = Exited EXIT_SUCCESS (set_stdout (w_stdout w2 ++ "> ") w2))
  /\ (forall w2, loop_body w = Returned 0 w2 -> loop w = Returned tt w2).
Proof.
  intros Hp Hne Hnl He. cbv zeta.
  assert (loop_body w =
            (args <- split_line line ;; execute args)
              (set_stdin (mkFILE "" AtEOF true (f_error (w_stdin w)))
                 (set_stdout (w_stdout w ++ "> ") w))) as Hbody.
  { unfold loop_body. unfold bind at 1. simpl. unfold bind at 1.
    rewrite (read_line_partial _ line) by assumption. reflexivity. }
  split; [apply read_line_partial; assumption|].
  split; [exact Hbody|].
  split; [rewrite read_line_at_eof by reflexivity; reflexivity|].
  split.
  - intros status w2 Hret Hnz. rewrite loop_step, Hret.
    apply Z.eqb_neq in Hnz. rewrite Hnz. simpl.
    assert (w_stdin w2 = mkFILE "" AtEOF true (f_error (w_stdin w))) as Hin.
    { rewrite Hbody in Hret.
      apply bind_Returned in Hret as (args & w3 & H3 & H4).
      match type of H3 with split_line _ ?w0 = _ =>
        pose proof (keeps_stdin_split_line line w0) as K3 end.
      rewrite H3 in K3.
      pose proof (keeps_stdin_execute args w3) as K4. rewrite H4 in K4.
      simpl in K3, K4. rewrite K4, K3. reflexivity. }
    rewrite loop_step. unfold loop_body. unfold bind at 1. simpl. unfold bind at 1.
    rewrite read_line_at_eof by (simpl; rewrite Hin; reflexivity).
    simpl. rewrite Hin. destruct w2. simpl in *. subst. reflexivity.
  - intros w2 Hret. rewrite loop_step, Hret. reflexivity.
Qed.

(** ** The tokenizer against its specification *)

Lemma in_set_TOKEN_DELIM (c : ascii) : in_set c TOKEN_DELIM = is_delim c.
Proof.
  unfold is_delim, TOKEN_DELIM. simpl.
  destruct (Ascii.eqb c " "), (Ascii.eqb c "009"), (Ascii.eqb c "013"),
    (Ascii.eqb c "010"), (Ascii.eqb c "007"); reflexivity.
Qed.

(** The delimiter set holds the five characters and no other. *)
Lemma is_delim_five (c : ascii) :
  is_delim c = true <->
  c = " "%char \/ c = "009"%char \/ c = "013"%char \/ c = "010"%char \/ c = "007"%char.
Proof.
  unfold is_delim. rewrite !orb_true_iff, !Ascii.eqb_eq. tauto.
Qed.

Lemma skip_delims_eq (c : ascii) (s : string) :
  skip_delims TOKEN_DELIM (String c s) =
    if is_nul c then String c s
    else if is_delim c then skip_delims TOKEN_DELIM s else String c s.
Proof. rewrite <- in_set_TOKEN_DELIM. reflexivity. Qed.

Lemma scan_token_eq (c : ascii) (s : string) :
  scan_token TOKEN_DELIM (String c s) =
    if is_nul c then (EmptyString, String c s)
    else if is_delim c then (EmptyString, s)
    else let '(tok, save) := scan_token TOKEN_DELIM s in (String c tok, save).
Proof. rewrite <- in_set_TOKEN_DELIM. reflexivity. Qed.

Lemma cstr_cons (c : ascii) (s : string) :
  cstr (String c s) = if is_nul c then EmptyString else String c (cstr s).
Proof. reflexivity. Qed.

(** [strspn]: the bytes skipped are a run of delimiters, and the pointer
    stops on the terminator or on a byte that is no delimiter. *)
Lemma skip_delims_spec (s : string) :
  exists d,
    delimiter_run d = true
    /\ cstr s = d ++ cstr (skip_delims TOKEN_DELIM s)
    /\ match skip_delims TOKEN_DELIM s with
       | EmptyString => True
       | String c _ => is_nul c = true \/ is_delim c = false
       end.
Proof.
  induction s as [|c s IH].
  - exists "". repeat split.
  - rewrite skip_delims_eq, cstr_cons. destruct (is_nul c) eqn:Hn.
    + exists "". rewrite cstr_cons, Hn. repeat split. left. reflexivity.
    + destruct (is_delim c) eqn:Hd.
      * destruct IH as (d & Hrun & Hc & Hm). exists (String c d).
        split; [|split; [|exact Hm]].
        -- unfold delimiter_run in *. simpl. rewrite Hd, Hrun. reflexivity.
        -- simpl. rewrite Hc. reflexivity.
      * exists "". rewrite cstr_cons, Hn. repeat split. right. exact Hd.
Qed.

(** The scan of one token: the token is free of delimiters, and the line
    goes on after it either with nothing or with the delimiter that ended
    it and what the save pointer points at. *)
Lemma scan_token_spec (s : string) :
  delimiter_free (fst (scan_token TOKEN_DELIM s)) = true
  /\ ((cstr s = fst (scan_token TOKEN_DELIM s)
       /\ cstr (snd (scan_token TOKEN_DELIM s)) = "")
      \/ (exists c, is_delim c = true
                    /\ cstr s = fst (scan_token TOKEN_DELIM s)
                                ++ String c (cstr (snd (scan_token TOKEN_DELIM s))))).
Proof.
  induction s as [|c s IH].
  - split; [reflexivity|]. left. split; reflexivity.
  - rewrite scan_token_eq, cstr_cons. destruct (is_nul c) eqn:Hn.
    + split; [reflexivity|]. left. simpl. rewrite Hn. split; reflexivity.
    + destruct (is_delim c) eqn:Hd.
      * split; [reflexivity|]. right. exists c. split; [exact Hd | reflexivity].
      * destruct (scan_token TOKEN_DELIM s) as [tok save]. simpl in *.
        destruct IH as (Hfree & Hrest). split.
        -- unfold delimiter_free in *. simpl. rewrite Hd, Hfree. reflexivity.
        -- destruct Hrest as [(Hc & Hs) | (d & Hdd & Hc)].
           ++ left. rewrite Hc. split; [reflexivity | exact Hs].
           ++ right. exists d. rewrite Hc. split; [exact Hdd | reflexivity].
Qed.

Lemma strtok_None (s : string) :
  strtok s TOKEN_DELIM = None -> delimiter_run (cstr s) = true.
Proof.
  unfold strtok. intros H.
  destruct (skip_delims_spec s) as (d & Hrun & Hc & Hm).
  destruct (skip_delims TOKEN_DELIM s) as [|c r].
  - simpl in Hc. rewrite append_nil_r in Hc. rewrite Hc. exact Hrun.
  - destruct (is_nul c) eqn:Hn; [|discriminate].
    rewrite cstr_cons, Hn, append_nil_r in Hc. rewrite Hc. exact Hrun.
Qed.

Lemma strtok_Some (s tok save : string) :
  strtok s TOKEN_DELIM = Some (tok, save) ->
  exists d,
    delimiter_run d = true
    /\ tok <> ""
    /\ delimiter_free tok = true
    /\ ((cstr s = d ++ tok /\ cstr save = "")
        \/ (exists c, is_delim c = true
                      /\ cstr s = d ++ tok ++ String c (cstr save))).
Proof.
  unfold strtok. intros H.
  destruct (skip_delims_spec s) as (d & Hrun & Hc & Hm).
  destruct (skip_delims TOKEN_DELIM s) as [|c r]; [discriminate|].
  destruct (is_nul c) eqn:Hn; [discriminate|].
  destruct Hm as [Hm|Hd]; [congruence|].
  assert (scan_token TOKEN_DELIM (String c r) = (tok, save)) as Hscan
    by (injection H as H'; exact H').
  clear H.
  pose proof (scan_token_spec (String c r)) as (Hfree & Hrest).
  rewrite Hscan in Hfree, Hrest. simpl fst in *. simpl snd in *.
  exists d. split; [exact Hrun|]. split; [|split; [exact Hfree|]].
  - rewrite scan_token_eq, Hn, Hd in Hscan.
    destruct (scan_token TOKEN_DELIM r). injection Hscan as <- _. discriminate.
  - destruct Hrest as [(Ht & Hs) | (x & Hx & Ht)].
    + left. rewrite Hc, Ht. split; [reflexivity | exact Hs].
    + right. exists x. rewrite Hc, Ht. split; [exact Hx | reflexivity].
Qed.

Lemma Splits_delim_cons (c : ascii) (s : string) (toks : list string) :
  is_delim c = true -> Splits s toks -> Splits (String c s) toks.
Proof.
  intros Hc H. destruct H as [d Hrun | d tok rest toks Hrun Hne Hfree Hend Hrest].
  - apply Splits_nil. unfold delimiter_run in *. simpl. rewrite Hc, Hrun. reflexivity.
  - change (String c (d ++ tok ++ rest)) with (String c d ++ tok ++ rest).
    apply Splits_cons; try assumption.
    unfold delimiter_run in *. simpl. rewrite Hc, Hrun. reflexivity.
Qed.

(** Iterating [strtok] over a line splits it on its delimiter runs. *)
Lemma Strtoks_Splits (tk : option (string * string)) (toks : list string) :
  Strtoks tk toks ->
  forall s, tk = strtok s TOKEN_DELIM -> Splits (cstr s) toks.
Proof.
  induction 1 as [|tok save toks Hrest IH]; intros s Hs; symmetry in Hs.
  - apply Splits_nil. apply strtok_None. exact Hs.
  - apply strtok_Some in Hs as (d & Hrun & Hne & Hfree & Hdecomp).
    specialize (IH save eq_refl).
    destruct Hdecomp as [(Hc & Hsave) | (c & Hd & Hc)]; rewrite Hc.
    + rewrite Hsave in IH. rewrite <- (append_nil_r tok) at 1.
      apply Splits_cons; try assumption. exact I.
    + apply Splits_cons; try assumption.
      apply Splits_delim_cons; assumption.
Qed.

(** With an allocator that serves every request, the loop of [split_line]
    appends the tokens [strtok] delivers and changes nothing in the world. *)
Lemma split_loop_Strtoks tk tokens position bufsize :
  forall w, (forall n, w_heap w n = true) ->
  exists more,
    split_loop tk tokens position bufsize w = Returned (tokens ++ more)%list w
    /\ Strtoks tk more.
Proof.
  funelim (split_loop tk tokens position bufsize); intros w Hheap.
  - assert (exists more,
              split_loop (strtok save TOKEN_DELIM) (tokens ++ [token])%list (position + 1)
                (if position + 1 >=? bufsize then bufsize + TOKEN_BUFSIZE else bufsize) w
              = Returned ((tokens ++ [token]) ++ more)%list w
              /\ Strtoks (strtok save TOKEN_DELIM) more) as (more & Hm & Hs).
    { destruct (position + 1 >=? bufsize).
      - match goal with IH : bool -> world -> forall w, _ |- _ => apply (IH true w w Hheap) end.
      - match goal with IH : world -> forall w, _ |- _ => apply (IH w w Hheap) end. }
    exists (token :: more). split; [|constructor; exact Hs].
    rewrite <- List.app_assoc in Hm. simpl in Hm.
    destruct (position + 1 >=? bufsize); [|exact Hm].
    unfold bind, alloc_ptrs. rewrite Hheap. exact Hm.
  - exists []. split; [|constructor]. rewrite List.app_nil_r. reflexivity.
Qed.

Lemma Splits_tokens (s : string) (toks : list string) :
  Splits s toks -> Forall (fun t => t <> "" /\ delimiter_free t = true) toks.
Proof. induction 1; constructor; auto. Qed.

Lemma Splits_delimiter_run (s : string) (toks : list string) :
  Splits s toks -> delimiter_run s = true -> toks = [].
Proof.
  intros H Hrun. destruct H as [|d tok rest toks _ Hne Hfree _ _]; [reflexivity|].
  exfalso. unfold delimiter_run, delimiter_free in *.
  induction d as [|c d IH]; simpl in Hrun.
  - destruct tok as [|c tok]; [contradiction|]. simpl in *.
    destruct (is_delim c); simpl in *; discriminate.
  - apply andb_true_iff in Hrun as [_ Hrun]. auto.
Qed.

(** At most one token per two bytes of the line. *)
Lemma Splits_count (s : string) (toks : list string) :
  Splits s toks ->
  (2 * List.length toks <= String.length s + 1)%nat
  /\ (token_end s -> 2 * List.length toks <= String.length s)%nat.
Proof.
  induction 1 as [d Hrun | d tok rest toks Hrun Hne Hfree Hend Hrest [_ IH]].
  - simpl. split; intros; lia.
  - specialize (IH Hend).
    assert (1 <= String.length tok)%nat
      by (destruct tok; [contradiction | simpl; lia]).
    rewrite !append_length. simpl List.length. split; [lia|].
    intros He. destruct d as [|c d]; [|simpl; lia].
    exfalso. destruct tok as [|c tok]; [contradiction|].
    unfold delimiter_free in Hfree. simpl in He, Hfree. rewrite He in Hfree.
    discriminate.
Qed.

(** When the first allocation fails [split_line] reports it and the
    process exits with [EXIT_FAILURE]. *)
Lemma split_line_allocation_failure (line : string) (w : world) :
  w_heap w (TOKEN_BUFSIZE * sizeof_ptr) = false ->
  split_line line w =
    Exited EXIT_FAILURE (set_stderr (w_stderr w ++ "Error: Allocation error" ++ nl) w).
Proof.
  intros H. unfold split_line, bind, alloc_ptrs. rewrite H. reflexivity.
Qed.

Lemma cstr_length (s : string) : (String.length (cstr s) <= String.length s)%nat.
Proof.
  induction s as [|c s IH]; [simpl; lia|].
  rewrite cstr_cons. destruct (is_nul c); simpl; lia.
Qed.

(** Successive calls of [strtok] come to an end. *)
Lemma Strtoks_exists (n : nat) :
  forall tk, (pending_tokens tk <= n)%nat -> exists more, Strtoks tk more.
Proof.
  induction n as [|n IH]; intros [[tok save]|] Hn; simpl in Hn;
    try lia; try (exists []; constructor).
  destruct (IH (strtok save TOKEN_DELIM)) as (more & Hmore).
  - pose proof (strtok_pending save TOKEN_DELIM). lia.
  - exists (tok :: more). constructor. exact Hmore.
Qed.

(** The loop keeps [position] below [bufsize] and [bufsize] at most
    [TOKEN_BUFSIZE] ahead of it, and it never asks for more pointers than
    the tokens it stores and [TOKEN_BUFSIZE] more. *)
Lemma split_loop_in_range (tk : option (string * string)) (more : list string) :
  Strtoks tk more ->
  forall tokens position bufsize w,
  0 <= position < bufsize ->
  bufsize <= position + TOKEN_BUFSIZE ->
  (forall n, 0 < n <= position + Z.of_nat (List.length more) + TOKEN_BUFSIZE ->
             w_heap w (n * sizeof_ptr) = true) ->
  split_loop tk tokens position bufsize w = Returned (tokens ++ more)%list w.
Proof.
  induction 1 as [|tok save toks Hrest IH];
    intros tokens position bufsize w Hpos Hbuf Hheap.
  - rewrite split_loop_equation_2, List.app_nil_r. reflexivity.
  - rewrite split_loop_equation_1. cbv zeta.
    simpl List.length in Hheap. rewrite Nat2Z.inj_succ in Hheap.
    unfold TOKEN_BUFSIZE in *.
    destruct (Z.geb_spec (position + 1) bufsize) as [Hge|Hlt].
    + unfold bind, alloc_ptrs. rewrite Hheap by lia.
      rewrite IH; [rewrite <- List.app_assoc; reflexivity | lia | lia |].
      intros n Hn. apply Hheap. lia.
    + rewrite IH; [rewrite <- List.app_assoc; reflexivity | lia | lia |].
      intros n Hn. apply Hheap. lia.
Qed.

Lemma split_line_Strtoks_in_range (line : string) (toks : list string) (w : world) :
  Strtoks (strtok line TOKEN_DELIM) toks ->
  Z.of_nat (List.length toks) + TOKEN_BUFSIZE <= INT_MAX ->
  serves_int_arrays w ->
  split_line line w = Returned toks w.
Proof.
  intros Htoks Hcount Hheap. unfold split_line, bind, alloc_ptrs.
  rewrite Hheap by (unfold TOKEN_BUFSIZE, INT_MAX; lia). simpl.
  rewrite (split_loop_in_range _ toks Htoks); [reflexivity | | |].
  - unfold TOKEN_BUFSIZE. lia.
  - unfold TOKEN_BUFSIZE. lia.
  - intros n Hn. apply Hheap. lia.
Qed.

(** On a line that the counters fit, with an allocator that serves arrays
    of [int] length, [split_line] returns the splitting of the C string,
    and the counters stay below [INT_MAX]. *)
Lemma split_line_Splits_in_range (line : string) (w : world) :
  serves_int_arrays w ->
  counters_fit line ->
  exists tokens,
    split_line line w = Returned tokens w
    /\ Splits (cstr line) tokens
    /\ Z.of_nat (List.length tokens) + TOKEN_BUFSIZE <= INT_MAX.
Proof.
  intros Hheap Hfit.
  destruct (Strtoks_exists _ (strtok line TOKEN_DELIM) (Nat.le_refl _)) as (tokens & Htoks).
  assert (Splits (cstr line) tokens) as Hsplit
    by (eapply Strtoks_Splits; [exact Htoks | reflexivity]).
  assert (Z.of_nat (List.length tokens) + TOKEN_BUFSIZE <= INT_MAX) as Hcount.
  { pose proof (proj1 (Splits_count _ _ Hsplit)) as Hc.
    pose proof (cstr_length line) as Hl.
    unfold counters_fit in Hfit. unfold TOKEN_BUFSIZE, INT_MAX.
    change (2 ^ 32) with 4294967296 in Hfit. lia. }
  exists tokens. split; [|split; assumption].
  apply split_line_Strtoks_in_range; assumption.
Qed.

Lemma split_line_Splits (line : string) (w : world) :
  (forall n, w_heap w n = true) ->
  exists tokens, split_line line w = Returned tokens w /\ Splits (cstr line) tokens.
Proof.
  intros Hheap.
  destruct (split_loop_Strtoks (strtok line TOKEN_DELIM) [] 0 TOKEN_BUFSIZE w Hheap)
    as (tokens & Hrun & Htoks).
  simpl in Hrun. exists tokens. split.
  - unfold split_line, bind, alloc_ptrs. rewrite Hheap. simpl. exact Hrun.
  - eapply Strtoks_Splits; [exact Htoks | reflexivity].
Qed.

(** *** Round trip *)

Lemma concat_spaced (t : string) (toks : list string) :
  String.concat " " (t :: toks) = t ++ spaced toks.
Proof.
  revert t. induction toks as [|t' toks IH]; intros t.
  - simpl. symmetry. apply append_nil_r.
  - change (String.concat " " (t :: t' :: toks))
      with (t ++ " " ++ String.concat " " (t' :: toks)).
    rewrite IH. reflexivity.
Qed.

Lemma all_chars_app (p : ascii -> bool) (a b : string) :
  all_chars p (a ++ b) = all_chars p a && all_chars p b.
Proof.
  induction a as [|c a IH]; simpl; [reflexivity|].
  rewrite IH. apply andb_assoc.
Qed.

Lemma span_unique (p : ascii -> bool) (a1 : string) :
  forall a2 b1 b2,
  all_chars p a1 = true -> all_chars p a2 = true ->
  stops p b1 -> stops p b2 ->
  a1 ++ b1 = a2 ++ b2 -> a1 = a2 /\ b1 = b2.
Proof.
  induction a1 as [|c a1 IH]; intros [|c2 a2] b1 b2 H1 H2 S1 S2 E; simpl in *.
  - split; [reflexivity | exact E].
  - subst b1. simpl in S1. apply andb_true_iff in H2 as [H2 _]. congruence.
  - subst b2. simpl in S2. apply andb_true_iff in H1 as [H1 _]. congruence.
  - injection E as <- E.
    apply andb_true_iff in H1 as [_ H1]. apply andb_true_iff in H2 as [_ H2].
    destruct (IH a2 b1 b2 H1 H2 S1 S2 E) as [-> ->]. split; reflexivity.
Qed.

Lemma token_stops_delims (tok rest : string) :
  tok <> "" -> delimiter_free tok = true -> stops is_delim (tok ++ rest).
Proof.
  destruct tok as [|c tok]; [contradiction|]. intros _ H.
  unfold delimiter_free in H. simpl in *.
  apply andb_true_iff in H as [H _]. apply negb_true_iff in H. exact H.
Qed.

Lemma token_end_stops (rest : string) :
  token_end rest -> stops (fun c => negb (is_delim c)) rest.
Proof.
  destruct rest as [|c rest]; simpl; [trivial|]. intros H. rewrite H. reflexivity.
Qed.

(** A line has one splitting only. *)
Lemma Splits_functional (s : string) (t1 : list string) :
  Splits s t1 -> forall t2, Splits s t2 -> t1 = t2.
Proof.
  induction 1 as [d Hrun | d tok rest toks Hrun Hne Hfree Hend Hrest IH]; intros t2 H2.
  - symmetry. eapply Splits_delimiter_run; eassumption.
  - inversion H2 as [d' Hrun' Hd | d' tok' rest' toks' Hrun' Hne' Hfree' Hend' Hrest' Hd Ht].
    + exfalso. subst d'.
      assert (tok :: toks = []) as Habs; [|discriminate Habs].
      eapply Splits_delimiter_run; [|exact Hrun'].
      apply Splits_cons; assumption.
    + destruct (span_unique is_delim d' d (tok' ++ rest') (tok ++ rest)) as [-> E];
        try assumption; try (apply token_stops_delims; assumption).
      destruct (span_unique (fun c => negb (is_delim c)) tok' tok rest' rest) as [-> ->];
        try assumption; try (apply token_end_stops; assumption).
      f_equal. apply IH. assumption.
Qed.

Lemma squeeze_delimiter_run (started gap : bool) (d : string) :
  delimiter_run d = true -> squeeze started gap d = "".
Proof.
  revert gap. induction d as [|c d IH]; intros gap H; [reflexivity|].
  unfold delimiter_run in *. simpl in *. apply andb_true_iff in H as [Hc H].
  rewrite Hc. apply IH. exact H.
Qed.

Lemma squeeze_skip (started gap : bool) (d x : string) :
  delimiter_run d = true ->
  squeeze started gap (d ++ x) =
    squeeze started (match d with EmptyString => gap | _ => true end) x.
Proof.
  revert gap. induction d as [|c d IH]; intros gap H; [reflexivity|].
  unfold delimiter_run in *. simpl in *. apply andb_true_iff in H as [Hc H].
  rewrite Hc, IH by exact H. destruct d; reflexivity.
Qed.

Lemma squeeze_word (tok rest : string) :
  delimiter_free tok = true ->
  squeeze true false (tok ++ rest) = tok ++ squeeze true false rest.
Proof.
  induction tok as [|c tok IH]; intros H; [reflexivity|].
  unfold delimiter_free in *. simpl in *. apply andb_true_iff in H as [Hc H].
  apply negb_true_iff in Hc. rewrite Hc, IH by exact H. reflexivity.
Qed.

Lemma squeeze_token (started gap : bool) (tok rest : string) :
  tok <> "" -> delimiter_free tok = true ->
  squeeze started gap (tok ++ rest) =
    (if started && gap then " " else "") ++ tok ++ squeeze true false rest.
Proof.
  destruct tok as [|c tok]; [contradiction|]. intros _ H.
  unfold delimiter_free in H. simpl in *. apply andb_true_iff in H as [Hc H].
  apply negb_true_iff in Hc. rewrite Hc, squeeze_word by exact H. reflexivity.
Qed.

Lemma squeeze_rest (s : string) (toks : list string) :
  Splits s toks ->
  forall gap, gap = true \/ token_end s -> squeeze true gap s = spaced toks.
Proof.
  induction 1 as [d Hrun | d tok rest toks Hrun Hne Hfree Hend Hrest IH]; intros gap Hg.
  - apply squeeze_delimiter_run. exact Hrun.
  - rewrite squeeze_skip by exact Hrun.
    assert ((match d with EmptyString => gap | _ => true end) = true) as ->.
    { destruct d; [|reflexivity]. destruct Hg as [Hg|Hg]; [exact Hg|].
      exfalso. pose proof (token_stops_delims tok rest Hne Hfree) as Hs.
      destruct tok as [|c tok]; [contradiction|].
      simpl in Hg, Hs. congruence. }
    rewrite squeeze_token by assumption. simpl.
    rewrite (IH false) by (right; exact Hend). reflexivity.
Qed.

(** Joining the tokens of a line with single spaces normalizes the line. *)
Lemma Splits_normalize (s : string) (toks : list string) :
  Splits s toks -> String.concat " " toks = normalize s.
Proof.
  unfold normalize.
  intros H. destruct H as [d Hrun | d tok rest toks Hrun Hne Hfree Hend Hrest].
  - rewrite squeeze_delimiter_run by exact Hrun. reflexivity.
  - rewrite squeeze_skip by exact Hrun.
    rewrite squeeze_token by assumption.
    rewrite (squeeze_rest rest toks Hrest false) by (right; exact Hend).
    rewrite concat_spaced. destruct d; reflexivity.
Qed.

Lemma cstr_nul_free (s : string) : nul_free (cstr s) = true.
Proof.
  unfold nul_free. induction s as [|c s IH]; [reflexivity|].
  rewrite cstr_cons. destruct (is_nul c) eqn:Hn; [reflexivity|].
  simpl. rewrite Hn, IH. reflexivity.
Qed.

Lemma cstr_id (s : string) : nul_free s = true -> cstr s = s.
Proof.
  unfold nul_free. induction s as [|c s IH]; intros H; [reflexivity|].
  simpl in H. apply andb_true_iff in H as [Hc H]. apply negb_true_iff in Hc.
  rewrite cstr_cons, Hc, IH by exact H. reflexivity.
Qed.

Lemma Splits_nul_free (s : string) (toks : list string) :
  Splits s toks -> nul_free s = true -> Forall (fun t => nul_free t = true) toks.
Proof.
  unfold nul_free.
  induction 1 as [d Hrun | d tok rest toks Hrun Hne Hfree Hend Hrest IH]; intros Hs.
  - constructor.
  - rewrite !all_chars_app in Hs.
    apply andb_true_iff in Hs as [_ Hs]. apply andb_true_iff in Hs as [Ht Hr].
    constructor; [exact Ht | apply IH; exact Hr].
Qed.

Lemma spaced_nul_free (toks : list string) :
  Forall (fun t => nul_free t = true) toks -> nul_free (spaced toks) = true.
Proof.
  unfold nul_free. induction 1 as [|t toks Ht _ IH]; [reflexivity|].
  simpl. rewrite all_chars_app, Ht, IH. reflexivity.
Qed.

Lemma concat_nul_free (toks : list string) :
  Forall (fun t => nul_free t = true) toks ->
  nul_free (String.concat " " toks) = true.
Proof.
  intros H. destruct H as [|t toks Ht Hrest]; [reflexivity|].
  rewrite concat_spaced. unfold nul_free in *.
  rewrite all_chars_app, Ht. apply spaced_nul_free. exact Hrest.
Qed.

Lemma Splits_spaced (toks : list string) :
  Forall (fun t => t <> "" /\ delimiter_free t = true) toks ->
  Splits (spaced toks) toks /\ token_end (spaced toks).
Proof.
  induction 1 as [|t toks [Hne Hfree] _ [IH IHe]].
  - split; [apply Splits_nil; reflexivity | exact I].
  - split; [|reflexivity].
    change (spaced (t :: toks)) with (" " ++ t ++ spaced toks).
    apply Splits_cons; try assumption. reflexivity.
Qed.

(** The tokens joined with single spaces split into the same tokens. *)
Lemma Splits_concat (toks : list string) :
  Forall (fun t => t <> "" /\ delimiter_free t = true) toks ->
  Splits (String.concat " " toks) toks.
Proof.
  intros H. destruct H as [|t toks [Hne Hfree] Hrest].
  - apply Splits_nil. reflexivity.
  - rewrite concat_spaced. destruct (Splits_spaced toks Hrest) as [Hs He].
    change (t ++ spaced toks) with ("" ++ t ++ spaced toks).
    apply Splits_cons; try assumption. reflexivity.
Qed.

Lemma up_to_delim_token (tok rest : string) :
  delimiter_free tok = true -> token_end rest -> up_to_delim (tok ++ rest) = tok.
Proof.
  unfold delimiter_free.
  induction tok as [|c tok IH]; intros Hfree Hend; simpl in *.
  - destruct rest as [|c rest]; [reflexivity|]. simpl in *. rewrite Hend. reflexivity.
  - apply andb_true_iff in Hfree as [Hc Hfree]. apply negb_true_iff in Hc.
    rewrite Hc, IH by assumption. reflexivity.
Qed.

(** The first token of a line that starts with a character of a token is
    the line up to its first delimiter. *)
Lemma Splits_first_token (s : string) (toks : list string) :
  Splits s toks ->
  match s with EmptyString => False | String c _ => is_delim c = false end ->
  hd_error toks = Some (up_to_delim s).
Proof.
  intros H Hs. destruct H as [d Hrun | d tok rest toks Hrun Hne Hfree Hend Hrest].
  - exfalso. destruct d as [|c d]; [exact Hs|].
    unfold delimiter_run in Hrun. simpl in Hrun.
    apply andb_true_iff in Hrun as [Hc _]. congruence.
  - destruct d as [|c d].
    + simpl. rewrite up_to_delim_token by assumption. reflexivity.
    + exfalso. unfold delimiter_run in Hrun. simpl in *.
      apply andb_true_iff in Hrun as [Hc _]. congruence.
Qed.

(** The hypothesis is the weakest one: on a line that does not start with
    a character of a token, the first token, if there is one, is not the
    line up to its first delimiter. *)
Lemma Splits_first_token_only (s : string) (toks : list string) :
  Splits s toks ->
  hd_error toks = Some (up_to_delim s) ->
  match s with EmptyString => False | String c _ => is_delim c = false end.
Proof.
  intros H Hhd. destruct H as [d Hrun | d tok rest toks Hrun Hne Hfree Hend Hrest];
    [discriminate|].
  simpl in Hhd. injection Hhd as Htok.
  destruct d as [|c d].
  - destruct tok as [|c tok]; [contradiction|].
    unfold delimiter_free in Hfree. simpl in *.
    apply andb_true_iff in Hfree as [Hc _]. apply negb_true_iff in Hc. exact Hc.
  - unfold delimiter_run in Hrun. simpl in *.
    apply andb_true_iff in Hrun as [Hc _]. rewrite Hc in Htok. contradiction.
Qed.

(** For every line: the tokens joined with single spaces are the
    normalized line, and tokenizing them again gives the same vector. *)
Lemma split_line_round_trip (line : string) (w : world) (tokens : list string) :
  (forall n, w_heap w n = true) ->
  split_line line w = Returned tokens w ->
  String.concat " " tokens = normalize (cstr line)
  /\ split_line (String.concat " " tokens) w = Returned tokens w.
Proof.
  intros Hheap Hrun.
  destruct (split_line_Splits line w Hheap) as (tokens' & Hrun' & Hsplit).
  rewrite Hrun in Hrun'. injection Hrun' as <-.
  split; [apply Splits_normalize; exact Hsplit|].
  destruct (split_line_Splits (String.concat " " tokens) w Hheap) as (again & Hrun2 & Hsplit2).
  rewrite Hrun2. f_equal.
  rewrite cstr_id in Hsplit2.
  - eapply Splits_functional; [exact Hsplit2|].
    apply Splits_concat. eapply Splits_tokens; exact Hsplit.
  - apply concat_nul_free. eapply Splits_nul_free; [exact Hsplit|].
    apply cstr_nul_free.
Qed.

Lemma is_delim_not_nul (c : ascii) : is_delim c = true -> is_nul c = false.
Proof.
  intros H. apply is_delim_five in H.
  destruct H as [-> | [-> | [-> | [-> | ->]]]]; reflexivity.
Qed.

(** Normalization drops delimiters and writes spaces: it neither removes
    nor adds a NUL. *)
Lemma squeeze_nul_free (s : string) :
  forall started gap, nul_free (squeeze started gap s) = nul_free s.
Proof.
  unfold nul_free. induction s as [|c s IH]; intros started gap; simpl; [reflexivity|].
  destruct (is_delim c) eqn:Hc.
  - rewrite IH, (is_delim_not_nul c Hc). reflexivity.
  - destruct (started && gap); simpl; rewrite IH; reflexivity.
Qed.

(** C8.  On a line that the [int] counters fit, with an allocator that
    serves arrays of [int] length, [split_line] returns, with the world as
    it was, the argument vector obtained by splitting the C string that
    [line] points at, which is the line up to its first NUL byte, on its
    maximal runs of the five delimiters space, tab, carriage return,
    newline and bell, and on nothing else: no quote or escape is looked
    at.  When the line holds no NUL byte that is the splitting of the line
    itself.  Every token is a non-empty string without a delimiter, a line
    that is empty or made of delimiters only up to its first NUL gives the
    empty vector, and the number of tokens with [TOKEN_BUFSIZE] more stays
    within [INT_MAX]. *)
Theorem split_line_splits_before_NUL (line : string) (w : world) :
  serves_int_arrays w ->
  counters_fit line ->
  exists tokens,
    split_line line w = Returned tokens w
    /\ Splits (cstr line) tokens
    /\ (nul_free line = true -> Splits line tokens)
    /\ Forall (fun t => t <> "" /\ delimiter_free t = true) tokens
    /\ (delimiter_run (cstr line) = true -> tokens = [])
    /\ Z.of_nat (List.length tokens) + TOKEN_BUFSIZE <= INT_MAX
    /\ (forall c, in_set c TOKEN_DELIM = true <->
                  c = " "%char \/ c = "009"%char \/ c = "013"%char
                  \/ c = "010"%char \/ c = "007"%char).
Proof.
  intros Hheap Hfit.
  destruct (split_line_Splits_in_range line w Hheap Hfit) as (tokens & Hrun & Hsplit & Hcount).
  exists tokens. split; [exact Hrun|]. split; [exact Hsplit|].
  split; [|split; [|split; [|split]]].
  - intros Hnul. rewrite <- (cstr_id line Hnul). exact Hsplit.
  - eapply Splits_tokens; exact Hsplit.
  - apply Splits_delimiter_run; exact Hsplit.
  - exact Hcount.
  - intros c. rewrite in_set_TOKEN_DELIM. apply is_delim_five.
Qed.

(** The hypothesis of C9 is the weakest one: the first token is the line
    up to its first delimiter and the joined tokens are the normalized
    line exactly when the line is well-formed. *)
Lemma round_trip_iff_well_formed (line : string) (w : world) (tokens : list string) :
  (forall n, w_heap w n = true) ->
  split_line line w = Returned tokens w ->
  (hd_error tokens = Some (up_to_delim line)
   /\ String.concat " " tokens = normalize line)
  <-> well_formed line = true.
Proof.
  intros Hheap Hrun.
  destruct (split_line_Splits line w Hheap) as (tokens' & Hrun' & Hsplit).
  rewrite Hrun in Hrun'. injection Hrun' as <-.
  unfold well_formed. rewrite andb_true_iff. split.
  - intros [Hhd Hjoin].
    assert (nul_free line = true) as Hnul.
    { unfold normalize in Hjoin. rewrite <- (squeeze_nul_free line false false), <- Hjoin.
      apply concat_nul_free. eapply Splits_nul_free; [exact Hsplit | apply cstr_nul_free]. }
    split; [exact Hnul|]. rewrite (cstr_id line Hnul) in Hsplit.
    apply (Splits_first_token_only _ _ Hsplit) in Hhd.
    destruct line as [|c r]; [contradiction|]. rewrite Hhd. reflexivity.
  - intros [Hnul Hfirst]. rewrite (cstr_id line Hnul) in Hsplit. split.
    + apply Splits_first_token; [exact Hsplit|].
      destruct line as [|c r]; [discriminate|].
      apply negb_true_iff in Hfirst. exact Hfirst.
    + apply Splits_normalize. exact Hsplit.
Qed.

(** C9.  For a well-formed line, one without a NUL byte that starts with
    its command name, that the [int] counters fit, and an allocator that
    serves arrays of [int] length: the first token that [split_line]
    produces is the line up to its first delimiter; the tokens joined with
    single spaces are the whitespace-normalized line; and that joined line
    tokenizes to the same argument vector. *)
Theorem tokens_round_trip (line : string) (w : world) :
  serves_int_arrays w ->
  counters_fit line ->
  well_formed line = true ->
  exists tokens,
    split_line line w = Returned tokens w
    /\ hd_error tokens = Some (up_to_delim line)
    /\ String.concat " " tokens = normalize line
    /\ split_line (String.concat " " tokens) w = Returned tokens w.
Proof.
  intros Hheap Hfit Hwf.
  destruct (split_line_Splits_in_range line w Hheap Hfit) as (tokens & Hrun & Hsplit & Hcount).
  unfold well_formed in Hwf. apply andb_true_iff in Hwf as [Hnul Hfirst].
  rewrite (cstr_id line Hnul) in Hsplit.
  exists tokens. split; [exact Hrun|]. split; [|split].
  - apply Splits_first_token; [exact Hsplit|].
    destruct line as [|c r]; [discriminate|].
    apply negb_true_iff in Hfirst. exact Hfirst.
  - apply Splits_normalize. exact Hsplit.
  - assert (Forall (fun t => nul_free t = true) tokens) as Htoks
      by (eapply Splits_nul_free; eassumption).
    destruct (Strtoks_exists _ (strtok (String.concat " " tokens) TOKEN_DELIM) (Nat.le_refl _))
      as (again & Hagain).
    assert (Splits (String.concat " " tokens) again) as Hsplit2.
    { rewrite <- (cstr_id (String.concat " " tokens)) by (apply concat_nul_free; exact Htoks).
      eapply Strtoks_Splits; [exact Hagain | reflexivity]. }
    assert (again = tokens) as ->.
    { eapply Splits_functional; [exact Hsplit2|].
      apply Splits_concat. eapply Splits_tokens; exact Hsplit. }
    apply split_line_Strtoks_in_range; assumption.
Qed.

End Program.

(** ** Concrete runs *)

Definition strerror_ex (e : Z) : string :=
  match e with
  | 2 => "No such file or directory"
  | 5 => "Input/output error"
  | 11 => "Resource temporarily unavailable"
  | _ => "Unknown error"
  end.

(** [fork] fails with EAGAIN. *)
Definition fork_fails : child_script := mkScript (-1) 11 [].

(** The process followed is the child. *)
Definition in_child : child_script := mkScript 0 0 [].


(** The child 4242 is stopped twice and never heard of again. *)
Definition only_stopped : child_script :=
  mkScript 4242 0 [W_STOPCODE 19; W_STOPCODE 20].

(** A world: the input [input] followed by [at_end], no directory can be
    entered, no program can be executed, memory is plentiful, and every
    [fork] is answered by [script]; an uninitialised [int] holds 0 and a
    [waitpid] with no report left blocks. *)
Definition world_ex (input : string) (at_end : end_cond) (script : child_script) : world :=
  mkWorld (mkFILE input at_end false false) "" "" 0 "/home"
          (fun _ _ => inr 2) (fun _ _ => Some 2) (fun _ => true)
          (fun _ => script) 0 (fun _ => [])
          (fun _ => 0) (fun _ => WaitBlocks).

(** The same world where the shell inherited an ignored SIGCHLD: the
    kernel reaps the children itself, and once the reports of [script] are
    taken [waitpid] fails with ECHILD (10) and stores nothing.  [junk] is
    the word that the uninitialised [status] of [launch] holds. *)
Definition world_sigchld_ignored (junk : Z) (script : child_script) : world :=
  mkWorld (mkFILE "" AtEOF false false) "" "" 0 "/home"
          (fun _ _ => inr 2) (fun _ _ => Some 2) (fun _ => true)
          (fun _ => script) 0 (fun _ => [])
          (fun _ => junk) (fun _ => WaitFails 10).

(** The child 4242 has exited and was reaped before the parent waits. *)
Definition already_reaped : child_script := mkScript 4242 0 [].

(** The child 4242 is stopped by SIGSTOP, then killed and reaped by the
    kernel: no second report reaches the parent. *)
Definition stopped_then_reaped : child_script := mkScript 4242 0 [W_STOPCODE 19].


(** The child of a command that cannot be executed. *)
Lemma child_never_returns_witness :
  fork_ret in_child = 0
  /\ w_execvp (world_ex "" AtEOF in_child) (Some "nosuchprog") ["nosuchprog"] = Some 2
  /\ exists w', launch strerror_ex ["nosuchprog"] (world_ex "" AtEOF in_child)
                = Exited EXIT_FAILURE w'
                /\ w_stderr w' = "Error: Child process failed: No such file or directory" ++ nl.
Proof.
  split; [reflexivity|]. split; [reflexivity|].
  destruct (child_never_returns strerror_ex ["nosuchprog"] (world_ex "" AtEOF in_child) eq_refl)
    as (Hfail & _).
  eexists. split; [apply (Hfail 2); reflexivity | reflexivity].
Defined.

(** A child that is only ever reported as stopped: the wait goes on for
    ever. *)
Example launch_only_stopped :
  exists w', launch strerror_ex ["vi"] (world_ex "" AtEOF only_stopped) = Blocked w'.
Proof.
  destruct (launch_wait_outcomes strerror_ex ["vi"] (world_ex "" AtEOF only_stopped) eq_refl)
    as (_ & Hblock & _).
  eapply Hblock; [reflexivity | repeat constructor].
Qed.

(** C3.  The wait of [launch] does not always go on until the child has
    exited or was killed by a signal, and no longer: the loop drops what
    [waitpid] returns and tests the local [status], which holds a report
    only when [waitpid] stored one.  Under an ignored SIGCHLD, where
    [waitpid] fails with ECHILD:
    - with no report at all and an uninitialised [status] that happens to
      read as an exit (0), [launch] returns [Continue] although no exit and
      no signal death was ever reported to it;
    - with an uninitialised [status] that happens to read as a stop (127),
      [launch] never returns although there is no child left to wait for;
    - after one report of a stop, the stale stopped status is tested again
      and again: [launch] never returns although the child is dead. *)
Theorem wait_tests_status_not_waitpid :
  (wait_trace already_reaped = []
   /\ terminal 0 = true
   /\ exists w', launch strerror_ex ["true"] (world_sigchld_ignored 0 already_reaped)
                 = Returned Continue w'
                 /\ w_errno w' = 10)
  /\ (terminal 127 = false
      /\ exists w', launch strerror_ex ["true"] (world_sigchld_ignored 127 already_reaped)
                    = Blocked w'
                    /\ w_errno w' = 10)
  /\ (wait_trace stopped_then_reaped = [W_STOPCODE 19]
      /\ WIFSTOPPED (W_STOPCODE 19) = true
      /\ exists w', launch strerror_ex ["vi"] (world_sigchld_ignored 0 stopped_then_reaped)
                    = Blocked w'
                    /\ w_children w' 4242 = []
                    /\ w_errno w' = 10).
Proof.
  split; [|split].
  - split; [reflexivity|]. split; [reflexivity|].
    eexists. split; [reflexivity | reflexivity].
  - split; [reflexivity|]. eexists. split; [reflexivity | reflexivity].
  - split; [reflexivity|]. split; [reflexivity|].
    eexists. split; [reflexivity|]. split; reflexivity.
Qed.

(** An empty input at its end, and an input whose first read fails. *)
Lemma read_line_failure_outcomes_witness :
  (f_pending (w_stdin (world_ex "" AtEOF fork_fails)) = ""
   /\ f_end (w_stdin (world_ex "" AtEOF fork_fails)) = AtEOF
   /\ exists w', loop strerror_ex (world_ex "" AtEOF fork_fails) = Exited 0 w'
                 /\ w_stdout w' = "> " /\ w_stderr w' = "" /\ w_nfork w' = 0%nat)
  /\ (f_end (w_stdin (world_ex "" (ReadError 5) fork_fails)) = ReadError 5
      /\ f_eof (w_stdin (world_ex "" (ReadError 5) fork_fails)) = false
      /\ exists w', read_line strerror_ex (world_ex "" (ReadError 5) fork_fails)
                    = Exited 1 w'
                    /\ w_stderr w' = "Error: readline error: Input/output error" ++ nl).
Proof.
  split.
  - split; [reflexivity|]. split; [reflexivity|].
    destruct (read_line_failure_outcomes strerror_ex (world_ex "" AtEOF fork_fails))
      as (_ & Heof & _).
    destruct (Heof eq_refl eq_refl) as (_ & Hloop).
    eexists. split; [exact Hloop|]. repeat split.
  - split; [reflexivity|]. split; [reflexivity|].
    destruct (read_line_failure_outcomes strerror_ex (world_ex "" (ReadError 5) fork_fails))
      as (_ & _ & Herr & _).
    eexists. split; [apply (Herr 5); reflexivity | reflexivity].
Defined.

(** [cd] to a directory that does not exist. *)
Lemma cd_atomic_on_error_witness :
  w_chdir (world_ex "" AtEOF fork_fails) "/home" "/nonexistent-xyz" = inr 2
  /\ exists w', execute strerror_ex ["cd"; "/nonexistent-xyz"] (world_ex "" AtEOF fork_fails)
                = Returned Continue w'
                /\ w_cwd w' = "/home"
                /\ w_stderr w' =
                     "Error: Failed to change directory: No such file or directory" ++ nl.
Proof.
  split; [reflexivity|].
  destruct (cd_atomic_on_error strerror_ex (world_ex "" AtEOF fork_fails)) as (_ & Hfail & _).
  destruct (Hfail "/nonexistent-xyz" [] 2 eq_refl) as (Hrun & _).
  eexists. split; [exact Hrun|]. split; reflexivity.
Defined.

(** A line with blanks and a tab. *)
Lemma split_line_splits_before_NUL_witness :
  serves_int_arrays (world_ex "" AtEOF fork_fails)
  /\ counters_fit ("  ls " ++ String "009" "-l" ++ nl)
  /\ exists tokens,
       split_line ("  ls " ++ String "009" "-l" ++ nl) (world_ex "" AtEOF fork_fails)
       = Returned tokens (world_ex "" AtEOF fork_fails)
       /\ Splits ("  ls " ++ String "009" "-l" ++ nl) tokens
       /\ Forall (fun t => t <> "" /\ delimiter_free t = true) tokens.
Proof.
  assert (serves_int_arrays (world_ex "" AtEOF fork_fails)) as Hheap
    by (intros n _; reflexivity).
  assert (counters_fit ("  ls " ++ String "009" "-l" ++ nl)) as Hfit
    by (unfold counters_fit; simpl; lia).
  split; [exact Hheap|]. split; [exact Hfit|].
  destruct (split_line_splits_before_NUL ("  ls " ++ String "009" "-l" ++ nl)
              (world_ex "" AtEOF fork_fails) Hheap Hfit)
    as (tokens & Hrun & _ & Hline & Hall & _).
  exists tokens. split; [exact Hrun|]. split; [apply Hline; reflexivity | exact Hall].
Defined.

(** The claim C8 as worded fails on a line with a NUL byte, which
    [getline] delivers like any other: the tokenizer stops at the NUL, and
    the vector it returns is not the splitting of the line, which goes on
    after the NUL. *)
Lemma split_line_does_not_split_past_NUL :
  ~ splits_the_line ("ls " ++ String NUL "-l" ++ nl) (world_ex "" AtEOF fork_fails).
Proof.
  intros (tokens & Hrun & Hsplit).
  assert (tokens = ["ls"]) as -> by (vm_compute in Hrun; injection Hrun as <-; reflexivity).
  assert (Splits ("ls " ++ String NUL "-l" ++ nl) ["ls"; String NUL "-l"]) as Hreal.
  { apply (Splits_cons "" "ls" (" " ++ String NUL "-l" ++ nl) [String NUL "-l"]);
      [reflexivity | discriminate | reflexivity | reflexivity |].
    apply (Splits_cons " " (String NUL "-l") nl []);
      [reflexivity | discriminate | reflexivity | reflexivity |].
    apply Splits_nil. reflexivity. }
  pose proof (Splits_functional _ _ Hsplit _ Hreal) as Habs. discriminate Habs.
Qed.

(** A command with runs of blanks between its words. *)
Lemma tokens_round_trip_witness :
  serves_int_arrays (world_ex "" AtEOF fork_fails)
  /\ counters_fit ("ls   -l  /tmp" ++ nl)
  /\ well_formed ("ls   -l  /tmp" ++ nl) = true
  /\ exists tokens,
       split_line ("ls   -l  /tmp" ++ nl) (world_ex "" AtEOF fork_fails)
       = Returned tokens (world_ex "" AtEOF fork_fails)
       /\ hd_error tokens = Some "ls"
       /\ String.concat " " tokens = normalize ("ls   -l  /tmp" ++ nl)
       /\ split_line (String.concat " " tokens) (world_ex "" AtEOF fork_fails)
          = Returned tokens (world_ex "" AtEOF fork_fails).
Proof.
  assert (serves_int_arrays (world_ex "" AtEOF fork_fails)) as Hheap
    by (intros n _; reflexivity).
  assert (counters_fit ("ls   -l  /tmp" ++ nl)) as Hfit
    by (unfold counters_fit; simpl; lia).
  split; [exact Hheap|]. split; [exact Hfit|]. split; [reflexivity|].
  exact (tokens_round_trip ("ls   -l  /tmp" ++ nl) (world_ex "" AtEOF fork_fails)
           Hheap Hfit eq_refl).
Defined.

(** The input [help] with no newline after it. *)
Lemma final_line_without_newline_witness :
  f_pending (w_stdin (world_ex "help" AtEOF fork_fails)) = "help"
  /\ "help" <> ""
  /\ take_line "help" = None
  /\ f_end (w_stdin (world_ex "help" AtEOF fork_fails)) = AtEOF
  /\ (exists w', read_line strerror_ex (world_ex "help" AtEOF fork_fails)
                 = Returned "help" w'
                 /\ f_pending (w_stdin w') = "" /\ f_eof (w_stdin w') = true)
  /\ exists w', loop strerror_ex (world_ex "help" AtEOF fork_fails) = Exited EXIT_SUCCESS w'
                /\ w_stdout w' = "> " ++ help_text ++ "> ".
Proof.
  split; [reflexivity|]. split; [discriminate|]. split; [reflexivity|].
  split; [reflexivity|].
  destruct (final_line_without_newline strerror_ex (world_ex "help" AtEOF fork_fails) "help")
    as (Hread & _ & _ & Hnext & _);
    [reflexivity | discriminate | reflexivity | reflexivity |].
  split.
  - eexists. split; [exact Hread|]. split; reflexivity.
  - eexists. split.
    + eapply Hnext; [reflexivity | discriminate].
    + reflexivity.
Defined.

(** The claim C6 as worded fails: what [help] writes starts with a heading
    line, and the names are indented. *)
Lemma help_does_not_write_names_only :
  ~ help_writes_names_only strerror_ex (world_ex "" AtEOF fork_fails).
Proof.
  intros (w' & Hrun & Hout).
  vm_compute in Hrun. injection Hrun as <-.
  vm_compute in Hout. discriminate Hout.
Qed.

(** Without the hypothesis of C9 the first token is not the beginning of
    the line: after leading blanks the line up to its first delimiter is
    empty, and the first token is the word after the blanks; and with a NUL
    byte in the line the first token stops at it. *)
Remark leading_blanks_first_token :
  well_formed ("  ls -l" ++ nl) = false
  /\ up_to_delim ("  ls -l" ++ nl) = ""
  /\ split_line ("  ls -l" ++ nl) (world_ex "" AtEOF fork_fails)
     = Returned ["ls"; "-l"] (world_ex "" AtEOF fork_fails)
  /\ well_formed ("a" ++ String NUL "b c" ++ nl) = false
  /\ up_to_delim ("a" ++ String NUL "b c" ++ nl) = "a" ++ String NUL "b"
  /\ split_line ("a" ++ String NUL "b c" ++ nl) (world_ex "" AtEOF fork_fails)
     = Returned ["a"] (world_ex "" AtEOF fork_fails).
Proof. repeat split. Qed.

(** Two runs of the whole program: the [exit] builtin ends [loop] and
    [main] leaves with [EXIT_SUCCESS]; so does the end of the input, from
    inside [read_line]. *)
Example main_exit_builtin :
  main strerror_ex (world_ex ("exit now" ++ nl ++ "help" ++ nl) AtEOF fork_fails)
  = Exited EXIT_SUCCESS
      (set_stdout "> "
         (set_stdin (mkFILE ("help" ++ nl) AtEOF false false)
            (world_ex "" AtEOF fork_fails))).
Proof. reflexivity. Qed.

Example main_end_of_input :
  main strerror_ex (world_ex ("cd" ++ nl) AtEOF fork_fails)
  = Exited EXIT_SUCCESS
      (set_stdout "> > "
         (set_stderr "Error: Please specify a directory"
            (set_stdin (mkFILE "" AtEOF true false)
               (world_ex "" AtEOF fork_fails)))).
Proof. reflexivity. Qed.

(** Some runs of the tokenizer: quotes are ordinary characters, a NUL ends
    the line, blank lines have no token. *)
Example split_line_quotes :
  split_line ("echo " ++ String "034" "a b" ++ String "034" nl) (world_ex "" AtEOF fork_fails)
  = Returned ["echo"; String "034" "a"; "b" ++ String "034" EmptyString]
             (world_ex "" AtEOF fork_fails).
Proof. reflexivity. Qed.

Example split_line_blank :
  split_line ("   " ++ String "009" "" ++ nl) (world_ex "" AtEOF fork_fails)
  = Returned [] (world_ex "" AtEOF fork_fails).
Proof. reflexivity. Qed.

Example split_line_leading_blanks :
  split_line ("  ls -l" ++ nl) (world_ex "" AtEOF fork_fails)
  = Returned ["ls"; "-l"] (world_ex "" AtEOF fork_fails).
Proof. reflexivity. Qed.

Example split_line_stops_at_NUL :
  split_line ("ls " ++ String NUL "-l") (world_ex "" AtEOF fork_fails)
  = Returned ["ls"] (world_ex "" AtEOF fork_fails).
Proof. reflexivity. Qed.

(** ** Further properties of the program *)

Section Coverage.
Variable strerror : Z -> string.

(** *** Dispatch *)

Lemma byte_inj (x y : ascii) : byte x = byte y -> x = y.
Proof.
  unfold byte. intros H. apply N2Z.inj in H.
  rewrite <- (ascii_N_embedding x), <- (ascii_N_embedding y), H. reflexivity.
Qed.

Lemma byte_zero (c : ascii) : byte c = 0 <-> is_nul c = true.
Proof.
  unfold is_nul. rewrite Ascii.eqb_eq. split.
  - intros H. apply byte_inj. exact H.
  - intros ->. reflexivity.
Qed.

(** [strcmp] is 0 exactly on equal C strings. *)
Lemma strcmp_zero_iff (a : string) :
  forall b, strcmp a b = 0 <-> cstr a = cstr b.
Proof.
  induction a as [|x a IH]; intros [|y b]; simpl.
  - split; reflexivity.
  - destruct (is_nul y) eqn:Hy.
    + apply byte_zero in Hy. rewrite Hy. split; reflexivity.
    + split; [|discriminate]. intros H.
      assert (byte y = 0) as Hz by lia. apply byte_zero in Hz. congruence.
  - destruct (is_nul x) eqn:Hx.
    + apply byte_zero in Hx. rewrite Hx. split; reflexivity.
    + split; [|discriminate]. intros H.
      assert (byte x = 0) as Hz by lia. apply byte_zero in Hz. congruence.
  - destruct (Ascii.eqb_spec x y) as [<-|Hne].
    + destruct (is_nul x); [split; reflexivity|].
      rewrite IH. split; [intros ->; reflexivity | intros H; injection H; trivial].
    + split.
      * intros H. exfalso. apply Hne. apply byte_inj. lia.
      * intros H. exfalso.
        destruct (is_nul x) eqn:Hx, (is_nul y) eqn:Hy; try discriminate.
        -- unfold is_nul in Hx, Hy. apply Ascii.eqb_eq in Hx, Hy. congruence.
        -- injection H as H _. contradiction.
Qed.

Lemma strcmp_eqb (a b : string) :
  nul_free b = true -> (strcmp a b =? 0) = String.eqb (cstr a) b.
Proof.
  intros Hb. rewrite <- (cstr_id b Hb) at 2.
  destruct (String.eqb_spec (cstr a) (cstr b)) as [E|E].
  - apply Z.eqb_eq. apply strcmp_zero_iff. exact E.
  - apply Z.eqb_neq. intros H. apply E. apply strcmp_zero_iff. exact H.
Qed.

(** The [for] of [execute] in terms of string equality. *)
Lemma execute_by_name (arg0 : string) (rest : list string) (w : world) :
  execute strerror (arg0 :: rest) w =
    if String.eqb (cstr arg0) "cd" then cd strerror (arg0 :: rest) w
    else if String.eqb (cstr arg0) "help" then help (arg0 :: rest) w
    else if String.eqb (cstr arg0) "exit" then exit_shell (arg0 :: rest) w
    else launch strerror (arg0 :: rest) w.
Proof.
  unfold execute, num_of_builtins, builtin_str, builtin_func.
  cbn [List.length firstn combine execute_from].
  rewrite !strcmp_eqb by reflexivity.
  destruct (String.eqb (cstr arg0) "cd"); [reflexivity|].
  destruct (String.eqb (cstr arg0) "help"); [reflexivity|].
  destruct (String.eqb (cstr arg0) "exit"); reflexivity.
Qed.

(** X1.  [execute] selects by exact comparison of [args[0]], as a C string,
    with the three names: each name reaches its own function, and a name
    that is none of them, whatever its case or its prefix, is handed to
    [launch] with the argument vector as it is. *)
Theorem execute_dispatch (arg0 : string) (rest : list string) (w : world) :
  (cstr arg0 = "cd" -> execute strerror (arg0 :: rest) w = cd strerror (arg0 :: rest) w)
  /\ (cstr arg0 = "help" -> execute strerror (arg0 :: rest) w = help (arg0 :: rest) w)
  /\ (cstr arg0 = "exit" -> execute strerror (arg0 :: rest) w = exit_shell (arg0 :: rest) w)
  /\ (cstr arg0 <> "cd" -> cstr arg0 <> "help" -> cstr arg0 <> "exit" ->
      execute strerror (arg0 :: rest) w = launch strerror (arg0 :: rest) w).
Proof.
  rewrite execute_by_name. repeat split.
  - intros ->. reflexivity.
  - intros ->. reflexivity.
  - intros ->. reflexivity.
  - intros Hcd Hhelp Hexit.
    apply String.eqb_neq in Hcd, Hhelp, Hexit. rewrite Hcd, Hhelp, Hexit. reflexivity.
Qed.

Lemma execute_builtin_cases (arg0 : string) (rest : list string) (w : world) :
  cstr arg0 = "cd" \/ cstr arg0 = "help" \/ cstr arg0 = "exit" ->
  execute strerror (arg0 :: rest) w = cd strerror (arg0 :: rest) w
  \/ execute strerror (arg0 :: rest) w = help (arg0 :: rest) w
  \/ execute strerror (arg0 :: rest) w = exit_shell (arg0 :: rest) w.
Proof.
  intros H. rewrite execute_by_name.
  destruct H as [-> | [-> | ->]]; simpl; auto.
Qed.

(** X2.  A builtin always comes back to the loop, and it never creates a
    process, takes a report from a child or reads the input stream. *)
Theorem builtins_return_without_spawning (arg0 : string) (rest : list string) (w : world) :
  cstr arg0 = "cd" \/ cstr arg0 = "help" \/ cstr arg0 = "exit" ->
  exists status w',
    execute strerror (arg0 :: rest) w = Returned status w'
    /\ w_nfork w' = w_nfork w
    /\ w_children w' = w_children w
    /\ w_stdin w' = w_stdin w.
Proof.
  intros H. destruct (execute_builtin_cases arg0 rest w H) as [E | [E | E]]; rewrite E.
  - unfold cd, bind. destruct (nth_error (arg0 :: rest) 1) as [p|].
    + unfold chdir. destruct (w_chdir w (w_cwd w) p); simpl;
        do 2 eexists; repeat split.
    + simpl. do 2 eexists. repeat split.
  - unfold help, bind, printf, num_of_builtins, builtin_str. simpl.
    unfold bind, printf, ret. simpl. do 2 eexists. repeat split.
  - do 2 eexists. repeat split.
Qed.

(** X3.  When the directory change succeeds, [cd] makes the resolved
    directory the working directory, writes nothing, and yields [Continue];
    arguments after the path are not looked at. *)
Theorem cd_changes_directory (p d : string) (rest : list string) (w : world) :
  w_chdir w (w_cwd w) p = inl d ->
  execute strerror ("cd" :: p :: rest) w = Returned Continue (set_cwd d w)
  /\ w_cwd (final (execute strerror ("cd" :: p :: rest) w)) = d
  /\ w_stderr (final (execute strerror ("cd" :: p :: rest) w)) = w_stderr w.
Proof.
  intros Hd.
  assert (execute strerror ("cd" :: p :: rest) w = Returned Continue (set_cwd d w)) as E.
  { rewrite execute_by_name. simpl. unfold cd, bind, chdir. simpl. rewrite Hd. reflexivity. }
  rewrite E. repeat split.
Qed.

(** *** The launcher *)

Lemma wait_loop_nfork (pid : Z) (q : list Z) :
  forall status w, w_children w pid = q ->
  w_nfork (final (wait_loop pid status w)) = w_nfork w
  /\ (forall p, p <> pid -> w_children (final (wait_loop pid status w)) p = w_children w p).
Proof.
  induction q as [|st q IH]; intros status w Hq.
  - rewrite (wait_loop_nil _ _ _ Hq).
    destruct (w_wait_end w pid); [|destruct (terminal status)]; split; reflexivity.
  - rewrite (wait_loop_cons _ _ _ _ _ Hq). destruct (terminal st).
    + simpl. split; [reflexivity|]. intros p Hp. unfold upd.
      apply Z.eqb_neq in Hp. rewrite Hp. reflexivity.
    + destruct (IH st (set_children (upd (w_children w) pid q) w)) as [Hn Hc];
        [simpl; apply upd_same|].
      rewrite Hn. split; [reflexivity|]. intros p Hp. rewrite (Hc p Hp).
      simpl. unfold upd. apply Z.eqb_neq in Hp. rewrite Hp. reflexivity.
Qed.

(** X4.  [launch] calls [fork] exactly once, however it ends: in the
    parent, in the child, or when the call fails.  In the parent it takes
    reports from the new child only. *)
Theorem launch_forks_once (args : list string) (w : world) :
  w_nfork (final (launch strerror args w)) = S (w_nfork w)
  /\ (forall p, p <> fork_ret (w_script w (w_nfork w)) ->
      w_children (final (launch strerror args w)) p = w_children w p).
Proof.
  rewrite launch_unfold_fork. cbv zeta.
  destruct (fork_ret (w_script w (w_nfork w)) <? 0); [split; reflexivity|].
  destruct (fork_ret (w_script w (w_nfork w)) =? 0).
  - destruct (w_execvp w (hd_error args) args); split; reflexivity.
  - match goal with |- context [wait_loop ?pid ?st ?w1] =>
      destruct (wait_loop_nfork pid (w_children w1 pid) st w1 eq_refl) as [Hn Hc];
      destruct (wait_loop pid st w1) eqn:E
    end; simpl in *; (split; [exact Hn|]);
    intros p Hp; rewrite (Hc p Hp); unfold upd;
    apply Z.eqb_neq in Hp; rewrite Hp; reflexivity.
Qed.

(** *** Line acquisition and one pass of the loop *)

Lemma take_line_split (s : string) :
  forall l r, take_line s = Some (l, r) ->
  s = l ++ r /\ exists body, l = body ++ nl /\ take_line body = None.
Proof.
  induction s as [|c s IH]; intros l r H; simpl in H; [discriminate|].
  destruct (Ascii.eqb c newline) eqn:Hc.
  - injection H as <- <-. apply Ascii.eqb_eq in Hc. subst c.
    split; [reflexivity|]. exists "". split; reflexivity.
  - destruct (take_line s) as [[l' r']|]; [|discriminate].
    injection H as <- <-. destruct (IH l' r' eq_refl) as (Hs & body & Hl & Hb).
    split; [simpl; rewrite <- Hs; reflexivity|].
    exists (String c body). split; [simpl; rewrite Hl; reflexivity|].
    simpl. rewrite Hc, Hb. reflexivity.
Qed.

Lemma read_line_full (w : world) (l r : string) :
  take_line (f_pending (w_stdin w)) = Some (l, r) ->
  read_line strerror w =
    Returned l (set_stdin (mkFILE r (f_end (w_stdin w)) (f_eof (w_stdin w))
                                  (f_error (w_stdin w))) w).
Proof.
  intros H. unfold read_line, bind, getline, stream_getline. rewrite H.
  destruct (f_end (w_stdin w)); reflexivity.
Qed.

(** X5.  [read_line] takes from the input exactly the bytes it returns:
    the input before the call is the line followed by the input after it,
    and nothing else in the world changes.  The line ends with the first
    newline of the input and holds no other; or, when the input has no
    newline left, the line is all of it. *)
Theorem read_line_takes_what_it_returns (w w' : world) (line : string) :
  read_line strerror w = Returned line w' ->
  f_pending (w_stdin w) = line ++ f_pending (w_stdin w')
  /\ w' = set_stdin (w_stdin w') w
  /\ ((exists body, line = body ++ nl /\ take_line body = None)
      \/ (take_line line = None /\ f_pending (w_stdin w') = "")).
Proof.
  destruct (take_line (f_pending (w_stdin w))) as [[l r]|] eqn:Ht.
  - rewrite (read_line_full _ _ _ Ht). intros H. injection H as <- <-.
    destruct (take_line_split _ _ _ Ht) as (Hs & Hbody).
    split; [exact Hs|]. split; [reflexivity|]. left. exact Hbody.
  - unfold read_line, bind, getline, stream_getline. rewrite Ht.
    destruct (f_pending (w_stdin w)) as [|c s] eqn:Hp.
    + unfold hit_end, feof_stdin.
      destruct (f_end (w_stdin w)); simpl; [discriminate|].
      destruct (f_eof (w_stdin w)); discriminate.
    + unfold hit_end. destruct (f_end (w_stdin w)); simpl;
        intros H; injection H as <- <-; simpl;
        (split; [symmetry; apply (append_nil_r (String c s))|];
         split; [reflexivity|]; right; split; [exact Ht | reflexivity]).
Qed.

Lemma loop_body_on_line (w : world) (l r : string) (toks : list string) :
  (forall n, w_heap w n = true) ->
  take_line (f_pending (w_stdin w)) = Some (l, r) ->
  Splits (cstr l) toks ->
  loop_body strerror w =
    execute strerror toks
      (set_stdin (mkFILE r (f_end (w_stdin w)) (f_eof (w_stdin w)) (f_error (w_stdin w)))
         (set_stdout (w_stdout w ++ "> ") w)).
Proof.
  intros Hheap Ht Hsplit. unfold loop_body. unfold bind at 1. simpl. unfold bind at 1.
  rewrite (read_line_full (set_stdout (w_stdout w ++ "> ") w) l r) by exact Ht.
  simpl. unfold bind at 1.
  match goal with |- context [split_line l ?w1] =>
    destruct (split_line_Splits l w1 Hheap) as (toks' & Hrun & Hsplit')
  end.
  rewrite Hrun. rewrite (Splits_functional _ _ Hsplit' _ Hsplit). reflexivity.
Qed.

(** X6.  A line that is empty or made of delimiters only is a command
    that does nothing: the pass through the loop writes the prompt, takes
    the line from the input and comes back with a nonzero status, and the
    loop goes on with the next line. *)
Theorem blank_line_does_nothing (w : world) (l r : string) :
  (forall n, w_heap w n = true) ->
  take_line (f_pending (w_stdin w)) = Some (l, r) ->
  delimiter_run (cstr l) = true ->
  let w1 := set_stdin (mkFILE r (f_end (w_stdin w)) (f_eof (w_stdin w)) (f_error (w_stdin w)))
              (set_stdout (w_stdout w ++ "> ") w) in
  loop_body strerror w = Returned Continue w1
  /\ loop strerror w = loop strerror w1.
Proof.
  intros Hheap Ht Hrun. cbv zeta.
  assert (loop_body strerror w = Returned Continue
            (set_stdin (mkFILE r (f_end (w_stdin w)) (f_eof (w_stdin w)) (f_error (w_stdin w)))
               (set_stdout (w_stdout w ++ "> ") w))) as Hbody
    by (rewrite (loop_body_on_line w l r [] Hheap Ht (Splits_nil _ Hrun)); reflexivity).
  split; [exact Hbody|]. rewrite (loop_step strerror w), Hbody. reflexivity.
Qed.

(** X7.  A line whose first token is [exit] ends the loop at once: the
    input after that line is left unread, nothing but the prompt is
    written, and [main] leaves with [EXIT_SUCCESS]. *)
Theorem exit_leaves_the_rest_unread (w : world) (l r : string) (toks : list string) :
  (forall n, w_heap w n = true) ->
  take_line (f_pending (w_stdin w)) = Some (l, r) ->
  Splits (cstr l) ("exit" :: toks) ->
  let w1 := set_stdin (mkFILE r (f_end (w_stdin w)) (f_eof (w_stdin w)) (f_error (w_stdin w)))
              (set_stdout (w_stdout w ++ "> ") w) in
  loop strerror w = Returned tt w1
  /\ main strerror w = Exited EXIT_SUCCESS w1
  /\ f_pending (w_stdin w1) = r.
Proof.
  intros Hheap Ht Hsplit. cbv zeta.
  assert (loop strerror w = Returned tt
            (set_stdin (mkFILE r (f_end (w_stdin w)) (f_eof (w_stdin w)) (f_error (w_stdin w)))
               (set_stdout (w_stdout w ++ "> ") w))) as Hloop.
  { rewrite (loop_step strerror w).
    rewrite (loop_body_on_line w l r _ Hheap Ht Hsplit).
    rewrite execute_by_name. reflexivity. }
  split; [exact Hloop|]. split; [|reflexivity].
  unfold main, bind. rewrite Hloop. reflexivity.
Qed.

(** *** The token array *)

Lemma Strtoks_total (tk : option (string * string)) : exists more, Strtoks tk more.
Proof.
  destruct (split_loop_Strtoks tk [] 0 TOKEN_BUFSIZE (world_ex "" AtEOF fork_fails)
              (fun _ => eq_refl)) as (more & _ & H).
  exists more. exact H.
Qed.

(** While the tokens fit in the array the loop asks for no memory. *)
Lemma split_loop_within (tk : option (string * string)) (more : list string) :
  Strtoks tk more ->
  forall tokens position bufsize w,
  position + Z.of_nat (List.length more) < bufsize ->
  split_loop tk tokens position bufsize w = Returned (tokens ++ more)%list w.
Proof.
  induction 1 as [|tok save toks Hrest IH]; intros tokens position bufsize w Hfit.
  - rewrite split_loop_equation_2, List.app_nil_r. reflexivity.
  - rewrite split_loop_equation_1. cbv zeta.
    simpl List.length in Hfit. rewrite Nat2Z.inj_succ in Hfit.
    destruct (Z.geb_spec (position + 1) bufsize) as [Hge|Hlt]; [lia|].
    rewrite IH by lia. rewrite <- List.app_assoc. reflexivity.
Qed.

(** When the array is full and the allocator refuses to grow it, the loop
    reports the failure and the process exits. *)
Lemma split_loop_refused (tk : option (string * string)) (more : list string) :
  Strtoks tk more ->
  forall tokens position bufsize w,
  position < bufsize ->
  bufsize <= position + Z.of_nat (List.length more) ->
  w_heap w ((bufsize + TOKEN_BUFSIZE) * sizeof_ptr) = false ->
  split_loop tk tokens position bufsize w =
    Exited EXIT_FAILURE (set_stderr (w_stderr w ++ "Error: Allocation error" ++ nl) w).
Proof.
  induction 1 as [|tok save toks Hrest IH]; intros tokens position bufsize w Hlt Hfull Hheap.
  - simpl in Hfull. lia.
  - rewrite split_loop_equation_1. cbv zeta.
    simpl List.length in Hfull. rewrite Nat2Z.inj_succ in Hfull.
    destruct (Z.geb_spec (position + 1) bufsize) as [Hge|Hlt'].
    + unfold bind, alloc_ptrs. rewrite Hheap. reflexivity.
    + apply IH; [lia | lia | exact Hheap].
Qed.

Lemma split_line_Strtoks (line : string) (toks : list string) :
  Splits (cstr line) toks -> Strtoks (strtok line TOKEN_DELIM) toks.
Proof.
  intros Hsplit. destruct (Strtoks_total (strtok line TOKEN_DELIM)) as (more & Hmore).
  rewrite (Splits_functional _ _ Hsplit more); [exact Hmore|].
  eapply Strtoks_Splits; [exact Hmore | reflexivity].
Qed.

(** X8.  A line of fewer than 64 tokens needs the first block of 64
    pointers only: when that one allocation is served, [split_line]
    returns the tokens whatever the allocator would answer to any other
    request. *)
Theorem split_line_fits_first_block (line : string) (toks : list string) (w : world) :
  w_heap w (TOKEN_BUFSIZE * sizeof_ptr) = true ->
  Splits (cstr line) toks ->
  (List.length toks < 64)%nat ->
  split_line line w = Returned toks w.
Proof.
  intros Hheap Hsplit Hlen. unfold split_line, bind, alloc_ptrs. rewrite Hheap. simpl.
  rewrite (split_loop_within _ toks (split_line_Strtoks line toks Hsplit));
    [reflexivity | unfold TOKEN_BUFSIZE; lia].
Qed.

(** X9.  With 64 tokens or more the array has to grow when the 64th token
    is stored: if the allocator refuses the block of 128 pointers,
    [split_line] writes the allocation error to the diagnostic stream and
    the process exits with [EXIT_FAILURE]; no shortened vector is
    returned. *)
Theorem split_line_growth_refused (line : string) (toks : list string) (w : world) :
  w_heap w (TOKEN_BUFSIZE * sizeof_ptr) = true ->
  w_heap w ((TOKEN_BUFSIZE + TOKEN_BUFSIZE) * sizeof_ptr) = false ->
  Splits (cstr line) toks ->
  (64 <= List.length toks)%nat ->
  split_line line w =
    Exited EXIT_FAILURE (set_stderr (w_stderr w ++ "Error: Allocation error" ++ nl) w).
Proof.
  intros Hfirst Hsecond Hsplit Hlen. unfold split_line, bind, alloc_ptrs.
  rewrite Hfirst. simpl.
  apply (split_loop_refused _ toks (split_line_Strtoks line toks Hsplit));
    [reflexivity | unfold TOKEN_BUFSIZE; lia | exact Hsecond].
Qed.

(** X10.  The argument vector has at most one token for every two bytes
    of the line, and no token holds a NUL: each is a C string of its own. *)
Theorem split_line_token_count (line : string) (tokens : list string) (w : world) :
  (forall n, w_heap w n = true) ->
  split_line line w = Returned tokens w ->
  (2 * List.length tokens <= String.length line + 1)%nat
  /\ Forall (fun t => nul_free t = true) tokens.
Proof.
  intros Hheap Hrun.
  destruct (split_line_Splits line w Hheap) as (tokens' & Hrun' & Hsplit).
  rewrite Hrun in Hrun'. injection Hrun' as <-.
  split.
  - pose proof (proj1 (Splits_count _ _ Hsplit)) as Hc.
    pose proof (cstr_length line). lia.
  - eapply Splits_nul_free; [exact Hsplit | apply cstr_nul_free].
Qed.

(** *** How the process ends *)

(** The two output streams of [w'] continue those of [w]. *)
Definition appended (w w' : world) : Prop :=
  (exists s, w_stdout w' = w_stdout w ++ s)
  /\ (exists s, w_stderr w' = w_stderr w ++ s).

(** An exit is diagnosed when its code is [EXIT_SUCCESS], or it is
    [EXIT_FAILURE] and something was written to the diagnostic stream
    since [w]. *)
Definition diagnosed {A : Type} (w : world) (o : outcome A) : Prop :=
  match o with
  | Exited c w' =>
      c = EXIT_SUCCESS
      \/ (c = EXIT_FAILURE /\ exists s, s <> "" /\ w_stderr w' = w_stderr w ++ s)
  | _ => True
  end.

Definition sound {A : Type} (m : M A) : Prop :=
  forall w, appended w (final (m w)) /\ diagnosed w (m w).

Lemma appended_refl (w : world) : appended w w.
Proof. split; exists ""; symmetry; apply append_nil_r. Qed.

Lemma appended_trans (a b c : world) : appended a b -> appended b c -> appended a c.
Proof.
  intros [[s1 H1] [e1 E1]] [[s2 H2] [e2 E2]]. split.
  - exists (s1 ++ s2). rewrite H2, H1. apply append_assoc.
  - exists (e1 ++ e2). rewrite E2, E1. apply append_assoc.
Qed.

Lemma append_nonempty_r (a b : string) : b <> "" -> a ++ b <> "".
Proof. destruct a; simpl; [trivial | discriminate]. Qed.

Lemma diagnosed_after {A : Type} (w w1 : world) (o : outcome A) :
  appended w w1 -> diagnosed w1 o -> diagnosed w o.
Proof.
  intros [_ [e E]] H. destruct o as [a w'|c w'|f v w'|w']; simpl in *; trivial.
  destruct H as [H | (Hc & s & Hs & Hw)]; [left; exact H|].
  right. split; [exact Hc|]. exists (e ++ s). split.
  - apply append_nonempty_r. exact Hs.
  - rewrite Hw, E. apply append_assoc.
Qed.

Lemma sound_bind {A B : Type} (m : M A) (k : A -> M B) :
  sound m -> (forall a, sound (k a)) -> sound (bind m k).
Proof.
  intros Hm Hk w. unfold bind. destruct (Hm w) as [Ha Hd].
  destruct (m w) as [a w1|c w1|f v w1|w1]; simpl in *; try (split; assumption).
  destruct (Hk a w1) as [Ha' Hd']. split.
  - eapply appended_trans; eassumption.
  - eapply diagnosed_after; eassumption.
Qed.

Ltac appended_now :=
  split; eexists; simpl; first [reflexivity | symmetry; apply append_nil_r].

Lemma sound_ret {A : Type} (a : A) : sound (ret a).
Proof. intros w. split; [apply appended_refl | exact I]. Qed.

Lemma sound_printf (s : string) : sound (printf s).
Proof. intros w. split; [appended_now | exact I]. Qed.

Lemma sound_fprintf (s : string) : sound (fprintf_stderr s).
Proof. intros w. split; [appended_now | exact I]. Qed.

Lemma sound_perror (msg : string) : sound (perror strerror msg).
Proof. intros w. split; [appended_now | exact I]. Qed.

Lemma sound_chdir (p : string) : sound (chdir p).
Proof.
  intros w. unfold chdir. destruct (w_chdir w (w_cwd w) p);
    (split; [appended_now | exact I]).
Qed.

Lemma sound_alloc (n : Z) : sound (alloc_ptrs n).
Proof. intros w. split; [apply appended_refl | exact I]. Qed.

Lemma sound_getline : sound getline.
Proof.
  intros w. unfold getline. destruct (stream_getline (w_stdin w)) as [r f].
  destruct r, (f_end (w_stdin w)); (split; [appended_now | exact I]).
Qed.

Lemma sound_feof : sound feof_stdin.
Proof. intros w. split; [apply appended_refl | exact I]. Qed.

Lemma sound_exit_success {A : Type} : sound (@exit A EXIT_SUCCESS).
Proof. intros w. split; [apply appended_refl | left; reflexivity]. Qed.

Lemma sound_fprintf_exit {A : Type} (s : string) :
  s <> "" -> sound (fprintf_stderr s ;; @exit A EXIT_FAILURE).
Proof.
  intros Hs w. split; [appended_now|]. right. split; [reflexivity|].
  exists s. split; [exact Hs | reflexivity].
Qed.

Lemma perror_text_nonempty (msg : string) (e : Z) : perror_text strerror msg e <> "".
Proof. unfold perror_text. apply append_nonempty_r. discriminate. Qed.

Lemma sound_perror_exit {A : Type} (msg : string) :
  sound (perror strerror msg ;; @exit A EXIT_FAILURE).
Proof.
  intros w. split; [appended_now|]. right. split; [reflexivity|].
  eexists. split; [apply perror_text_nonempty | reflexivity].
Qed.

Lemma wait_loop_quiet (pid : Z) (q : list Z) :
  forall status w, w_children w pid = q ->
  w_stdout (final (wait_loop pid status w)) = w_stdout w
  /\ w_stderr (final (wait_loop pid status w)) = w_stderr w
  /\ (forall c w', wait_loop pid status w <> Exited c w').
Proof.
  induction q as [|st q IH]; intros status w Hq.
  - rewrite (wait_loop_nil _ _ _ Hq).
    destruct (w_wait_end w pid); [|destruct (terminal status)];
      repeat split; discriminate.
  - rewrite (wait_loop_cons _ _ _ _ _ Hq). destruct (terminal st).
    + repeat split. discriminate.
    + destruct (IH st (set_children (upd (w_children w) pid q) w)) as (Ho & He & Hx);
        [simpl; apply upd_same|].
      rewrite Ho, He. repeat split. exact Hx.
Qed.

Lemma sound_launch (args : list string) : sound (launch strerror args).
Proof.
  intros w. rewrite launch_unfold_fork. cbv zeta.
  destruct (fork_ret (w_script w (w_nfork w)) <? 0); [split; [appended_now | exact I]|].
  destruct (fork_ret (w_script w (w_nfork w)) =? 0).
  - destruct (w_execvp w (hd_error args) args) as [e|].
    + split; [appended_now|]. right. split; [reflexivity|].
      eexists. split; [apply perror_text_nonempty | reflexivity].
    + split; [appended_now | exact I].
  - match goal with |- context [wait_loop ?pid ?st ?w1] =>
      destruct (wait_loop_quiet pid (w_children w1 pid) st w1 eq_refl) as (Ho & He & Hx);
      destruct (wait_loop pid st w1) as [a w'|c w'|f v w'|w'] eqn:E
    end; simpl in *.
    + split; [|exact I]. split; exists ""; rewrite append_nil_r; assumption.
    + exfalso. apply (Hx c w'). reflexivity.
    + split; [|exact I]. split; exists ""; rewrite append_nil_r; assumption.
    + split; [|exact I]. split; exists ""; rewrite append_nil_r; assumption.
Qed.

Lemma sound_for_each {A : Type} (l : list A) (body : A -> M unit) :
  (forall x, sound (body x)) -> sound (for_each l body).
Proof.
  intros Hb. induction l as [|x l IH]; simpl; [apply sound_ret|].
  apply sound_bind; [apply Hb | intros _; exact IH].
Qed.

Lemma sound_execute (args : list string) : sound (execute strerror args).
Proof.
  destruct args as [|arg0 rest]; [apply sound_ret|].
  intros w. rewrite execute_by_name.
  destruct (String.eqb (cstr arg0) "cd").
  - revert w. unfold cd. apply sound_bind; [|intros _; apply sound_ret].
    destruct (nth_error (arg0 :: rest) 1); [|apply sound_fprintf].
    apply sound_bind; [apply sound_chdir|]. intros r.
    destruct (negb (r =? 0)); [apply sound_perror | apply sound_ret].
  - destruct (String.eqb (cstr arg0) "help").
    + revert w. unfold help. apply sound_bind; [apply sound_printf|]. intros _.
      apply sound_bind; [|intros _; apply sound_ret].
      apply sound_for_each. intros i. apply sound_printf.
    + destruct (String.eqb (cstr arg0) "exit"); [apply sound_ret | apply sound_launch].
Qed.

Lemma sound_split_loop (tk : option (string * string)) (more : list string) :
  Strtoks tk more ->
  forall tokens position bufsize, sound (split_loop tk tokens position bufsize).
Proof.
  induction 1 as [|tok save toks Hrest IH]; intros tokens position bufsize.
  - rewrite split_loop_equation_2. apply sound_ret.
  - rewrite split_loop_equation_1. cbv zeta.
    destruct (position + 1 >=? bufsize); [|apply IH].
    apply sound_bind; [apply sound_alloc|]. intros [|]; [apply IH|].
    apply sound_fprintf_exit. discriminate.
Qed.

Lemma sound_split_line (line : string) : sound (split_line line).
Proof.
  unfold split_line. apply sound_bind; [apply sound_alloc|]. intros ok.
  destruct (Strtoks_total (strtok line TOKEN_DELIM)) as (more & Hmore).
  destruct ok; simpl.
  - apply sound_bind; [apply sound_ret|]. intros _. eapply sound_split_loop; exact Hmore.
  - apply sound_bind; [|intros _; eapply sound_split_loop; exact Hmore].
    apply sound_fprintf_exit. discriminate.
Qed.

Lemma sound_read_line : sound (read_line strerror).
Proof.
  unfold read_line. apply sound_bind; [apply sound_getline|]. intros [line|].
  - apply sound_ret.
  - apply sound_bind; [apply sound_feof|]. intros [|].
    + apply sound_exit_success.
    + apply sound_perror_exit.
Qed.

Lemma sound_loop_body : sound (loop_body strerror).
Proof.
  unfold loop_body. apply sound_bind; [apply sound_printf|]. intros _.
  apply sound_bind; [apply sound_read_line|]. intros line.
  apply sound_bind; [apply sound_split_line|]. intros args.
  apply sound_execute.
Qed.

Lemma sound_loop_bounded (n : nat) :
  forall w, (String.length (f_pending (w_stdin w)) < n)%nat ->
  appended w (final (loop strerror w)) /\ diagnosed w (loop strerror w).
Proof.
  induction n as [|n IH]; intros w Hn; [lia|].
  rewrite (loop_step strerror w).
  destruct (sound_loop_body w) as [Ha Hd].
  destruct (loop_body strerror w) as [status w1|c w1|f v w1|w1] eqn:E;
    simpl in *; try (split; assumption).
  destruct (negb (status =? 0)); [|split; [exact Ha | exact I]].
  apply loop_body_shorter in E.
  destruct (IH w1 ltac:(lia)) as [Ha' Hd']. split.
  - eapply appended_trans; eassumption.
  - eapply diagnosed_after; eassumption.
Qed.

Lemma sound_loop : sound (loop strerror).
Proof. intros w. apply (sound_loop_bounded (S (String.length (f_pending (w_stdin w))))). lia. Qed.

(** X11.  However a run of [loop] ends, what was written to the standard
    output and to the standard error stream before it is still there,
    followed by what the run wrote.  [loop] returns to [main], which then
    returns [EXIT_SUCCESS]; or the process exits inside [loop], and then
    the code is [EXIT_SUCCESS], or it is [EXIT_FAILURE] and the run wrote a
    diagnostic to the standard error stream; or the process is a child
    whose image was replaced; or it waits for a child for ever. *)
Theorem loop_ends_diagnosed (w : world) :
  match loop strerror w with
  | Returned _ w' => appended w w'
  | Exited c w' =>
      appended w w'
      /\ (c = EXIT_SUCCESS
          \/ (c = EXIT_FAILURE /\ exists s, s <> "" /\ w_stderr w' = w_stderr w ++ s))
  | Replaced _ _ w' => appended w w'
  | Blocked w' => appended w w'
  end.
Proof.
  destruct (sound_loop w) as [Ha Hd].
  destruct (loop strerror w) as [a w'|c w'|f v w'|w']; simpl in *; auto.
Qed.

(** X12.  Only [exit] stops the shell: when [execute] hands back the
    status 0, the command name was [exit] and nothing in the world was
    changed.  Every other command that comes back hands back 1. *)
Theorem only_exit_stops (args : list string) (w w' : world) (status : Z) :
  execute strerror args w = Returned status w' ->
  (status = Stop /\ w' = w /\ exists arg0 rest, args = arg0 :: rest /\ cstr arg0 = "exit")
  \/ status = Continue.
Proof.
  destruct args as [|arg0 rest].
  - intros H. injection H as <- _. right. reflexivity.
  - rewrite execute_by_name.
    destruct (String.eqb (cstr arg0) "cd").
    + intros H. unfold cd in H. apply bind_Returned in H as (u & w1 & _ & H).
      injection H as <- _. right. reflexivity.
    + destruct (String.eqb (cstr arg0) "help").
      * intros H. unfold help in H. apply bind_Returned in H as (u & w1 & _ & H).
        apply bind_Returned in H as (u' & w2 & _ & H).
        injection H as <- _. right. reflexivity.
      * destruct (String.eqb_spec (cstr arg0) "exit") as [He|_].
        -- intros H. injection H as <- <-. left.
           split; [reflexivity|]. split; [reflexivity|]. exists arg0, rest. auto.
        -- intros H. unfold launch in H. apply bind_Returned in H as (st0 & w0 & _ & H).
           apply bind_Returned in H as (pid & w1 & _ & H).
           apply bind_Returned in H as (u & w2 & _ & H).
           injection H as <- _. right. reflexivity.
Qed.

(** *** Input of blank lines only *)

(** A delimiter other than the newline. *)
Definition is_blank (c : ascii) : bool := is_delim c && negb (Ascii.eqb c newline).

(** The lines [ds], each ended by a newline, one after the other. *)
Fixpoint lines_of (ds : list string) : string :=
  match ds with
  | [] => EmptyString
  | d :: ds' => d ++ nl ++ lines_of ds'
  end.

Fixpoint prompts (n : nat) : string :=
  match n with
  | O => EmptyString
  | S n' => "> " ++ prompts n'
  end.

Lemma take_line_blank (d rest : string) :
  all_chars is_blank d = true ->
  take_line (d ++ nl ++ rest) = Some (d ++ nl, rest).
Proof.
  induction d as [|c d IH]; intros H; [reflexivity|].
  simpl in H. apply andb_true_iff in H as [Hc H].
  unfold is_blank in Hc. apply andb_true_iff in Hc as [_ Hc].
  apply negb_true_iff in Hc. specialize (IH H). simpl in IH |- *.
  rewrite Hc, IH. reflexivity.
Qed.

Lemma delim_not_nul (c : ascii) : is_delim c = true -> is_nul c = false.
Proof.
  intros H. destruct (is_nul c) eqn:Hn; [|reflexivity].
  unfold is_nul in Hn. apply Ascii.eqb_eq in Hn. subst c. discriminate H.
Qed.

Lemma blank_line_delimiter_run (d : string) :
  all_chars is_blank d = true -> delimiter_run (cstr (d ++ nl)) = true.
Proof.
  induction d as [|c d IH]; intros H; [reflexivity|].
  simpl in H. apply andb_true_iff in H as [Hc H].
  unfold is_blank in Hc. apply andb_true_iff in Hc as [Hc _].
  change (String c d ++ nl) with (String c (d ++ nl)).
  rewrite cstr_cons, (delim_not_nul c Hc).
  unfold delimiter_run in *. simpl. rewrite Hc. apply IH. exact H.
Qed.

Lemma loop_blank_lines (ds : list string) :
  Forall (fun d => all_chars is_blank d = true) ds ->
  forall w,
  (forall n, w_heap w n = true) ->
  f_pending (w_stdin w) = lines_of ds ->
  f_end (w_stdin w) = AtEOF ->
  loop strerror w =
    Exited EXIT_SUCCESS
      (set_stdin (mkFILE "" AtEOF true (f_error (w_stdin w)))
         (set_stdout (w_stdout w ++ prompts (S (List.length ds))) w)).
Proof.
  induction 1 as [|d ds Hd Hds IH]; intros w Hheap Hp He.
  - rewrite (loop_step strerror w). unfold loop_body. unfold bind at 1. simpl.
    unfold bind at 1. rewrite read_line_at_eof by assumption. reflexivity.
  - rewrite (loop_step strerror w).
    assert (take_line (f_pending (w_stdin w)) = Some (d ++ nl, lines_of ds)) as Ht
      by (rewrite Hp; apply take_line_blank; exact Hd).
    rewrite (loop_body_on_line w _ _ [] Hheap Ht
               (Splits_nil _ (blank_line_delimiter_run d Hd))).
    simpl execute. unfold ret. simpl negb. cbv iota.
    rewrite IH; [|exact Hheap|reflexivity|exact He].
    unfold set_stdin, set_stdout.
    cbn [w_stdin w_stdout w_stderr w_errno w_cwd w_chdir w_execvp w_heap
         w_script w_nfork w_children f_error].
    rewrite append_assoc. reflexivity.
Qed.

(** X13.  On an input made of blank lines only (spaces, tabs, carriage
    returns and bells, each line ended by its newline) the shell writes
    one prompt per line and one more, starts no process, writes no
    diagnostic, and exits with [EXIT_SUCCESS] at the end of the input. *)
Theorem blank_input_exits_cleanly (ds : list string) (w : world) :
  Forall (fun d => all_chars is_blank d = true) ds ->
  (forall n, w_heap w n = true) ->
  f_pending (w_stdin w) = lines_of ds ->
  f_end (w_stdin w) = AtEOF ->
  main strerror w =
    Exited EXIT_SUCCESS
      (set_stdin (mkFILE "" AtEOF true (f_error (w_stdin w)))
         (set_stdout (w_stdout w ++ prompts (S (List.length ds))) w)).
Proof.
  intros Hds Hheap Hp He. unfold main, bind.
  rewrite (loop_blank_lines ds Hds w Hheap Hp He). reflexivity.
Qed.

End Coverage.

(** *** Concrete runs of the further properties *)

(** A world like [world_ex] where every directory can be entered. *)
Definition world_home (input : string) : world :=
  mkWorld (mkFILE input AtEOF false false) "" "" 0 "/home"
          (fun _ p => inl p) (fun _ _ => Some 2) (fun _ => true)
          (fun _ => fork_fails) 0 (fun _ => [])
          (fun _ => 0) (fun _ => WaitBlocks).

(** A world where the allocator serves 512 bytes, the first block of 64
    pointers, and nothing larger. *)
Definition world_tight : world :=
  mkWorld (mkFILE "" AtEOF false false) "" "" 0 "/home"
          (fun _ _ => inr 2) (fun _ _ => Some 2) (fun n => n <=? 512)
          (fun _ => fork_fails) 0 (fun _ => [])
          (fun _ => 0) (fun _ => WaitBlocks).

(** The name [Exit] is no builtin. *)
Lemma execute_dispatch_witness :
  cstr "Exit" <> "cd" /\ cstr "Exit" <> "help" /\ cstr "Exit" <> "exit"
  /\ execute strerror_ex ["Exit"] (world_ex "" AtEOF fork_fails)
     = launch strerror_ex ["Exit"] (world_ex "" AtEOF fork_fails).
Proof.
  repeat (split; [discriminate|]).
  destruct (execute_dispatch strerror_ex "Exit" [] (world_ex "" AtEOF fork_fails))
    as (_ & _ & _ & H).
  apply H; discriminate.
Defined.

(** [help] with arguments. *)
Lemma builtins_return_without_spawning_witness :
  (cstr "help" = "cd" \/ cstr "help" = "help" \/ cstr "help" = "exit")
  /\ exists status w',
       execute strerror_ex ["help"; "me"] (world_ex "" AtEOF fork_fails) = Returned status w'
       /\ w_nfork w' = 0%nat.
Proof.
  assert (cstr "help" = "cd" \/ cstr "help" = "help" \/ cstr "help" = "exit") as H
    by (right; left; reflexivity).
  split; [exact H|].
  destruct (builtins_return_without_spawning strerror_ex "help" ["me"]
              (world_ex "" AtEOF fork_fails) H) as (status & w' & Hrun & Hn & _).
  exists status, w'. split; [exact Hrun | exact Hn].
Defined.

(** [cd /tmp extra] where [/tmp] can be entered. *)
Lemma cd_changes_directory_witness :
  w_chdir (world_home "") (w_cwd (world_home "")) "/tmp" = inl "/tmp"
  /\ execute strerror_ex ["cd"; "/tmp"; "extra"] (world_home "")
     = Returned Continue (set_cwd "/tmp" (world_home "")).
Proof.
  split; [reflexivity|].
  exact (proj1 (cd_changes_directory strerror_ex "/tmp" "/tmp" ["extra"] (world_home "") eq_refl)).
Defined.

(** Two lines of input, the second without its newline. *)
Lemma read_line_takes_what_it_returns_witness :
  read_line strerror_ex (world_ex ("ls" ++ nl ++ "pwd") AtEOF fork_fails)
  = Returned ("ls" ++ nl)
      (set_stdin (mkFILE "pwd" AtEOF false false) (world_ex "" AtEOF fork_fails))
  /\ "ls" ++ nl ++ "pwd" = ("ls" ++ nl) ++ "pwd".
Proof.
  split; [reflexivity|].
  exact (proj1 (read_line_takes_what_it_returns strerror_ex
                  (world_ex ("ls" ++ nl ++ "pwd") AtEOF fork_fails)
                  (set_stdin (mkFILE "pwd" AtEOF false false) (world_ex "" AtEOF fork_fails))
                  ("ls" ++ nl) eq_refl)).
Defined.

(** A line of two spaces and a tab before a command. *)
Lemma blank_line_does_nothing_witness :
  (forall n, w_heap (world_ex ("  " ++ String "009" nl ++ "ls" ++ nl) AtEOF fork_fails) n = true)
  /\ take_line ("  " ++ String "009" nl ++ "ls" ++ nl)
     = Some ("  " ++ String "009" nl, "ls" ++ nl)
  /\ delimiter_run (cstr ("  " ++ String "009" nl)) = true
  /\ loop_body strerror_ex (world_ex ("  " ++ String "009" nl ++ "ls" ++ nl) AtEOF fork_fails)
     = Returned Continue
         (set_stdout "> " (world_ex ("ls" ++ nl) AtEOF fork_fails)).
Proof.
  split; [intros n; reflexivity|]. split; [reflexivity|]. split; [reflexivity|].
  exact (proj1 (blank_line_does_nothing strerror_ex
                  (world_ex ("  " ++ String "009" nl ++ "ls" ++ nl) AtEOF fork_fails)
                  ("  " ++ String "009" nl) ("ls" ++ nl)
                  (fun n => eq_refl) eq_refl eq_refl)).
Defined.

Lemma Splits_exit_now : Splits (cstr ("exit now" ++ nl)) ["exit"; "now"].
Proof.
  apply (Splits_cons "" "exit" (" now" ++ nl) ["now"]);
    [reflexivity | discriminate | reflexivity | reflexivity |].
  apply (Splits_cons " " "now" nl []);
    [reflexivity | discriminate | reflexivity | reflexivity |].
  apply Splits_nil. reflexivity.
Qed.

(** [exit now], with a command after it that is never read. *)
Lemma exit_leaves_the_rest_unread_witness :
  (forall n, w_heap (world_ex ("exit now" ++ nl ++ "help" ++ nl) AtEOF fork_fails) n = true)
  /\ take_line ("exit now" ++ nl ++ "help" ++ nl) = Some ("exit now" ++ nl, "help" ++ nl)
  /\ Splits (cstr ("exit now" ++ nl)) ["exit"; "now"]
  /\ main strerror_ex (world_ex ("exit now" ++ nl ++ "help" ++ nl) AtEOF fork_fails)
     = Exited EXIT_SUCCESS (set_stdout "> " (world_ex ("help" ++ nl) AtEOF fork_fails)).
Proof.
  split; [intros n; reflexivity|]. split; [reflexivity|]. split; [exact Splits_exit_now|].
  destruct (exit_leaves_the_rest_unread strerror_ex
              (world_ex ("exit now" ++ nl ++ "help" ++ nl) AtEOF fork_fails)
              ("exit now" ++ nl) ("help" ++ nl) ["now"]
              (fun n => eq_refl) eq_refl Splits_exit_now) as (_ & Hmain & _).
  exact Hmain.
Defined.

Lemma Splits_words (toks : list string) :
  Forall (fun t => t <> "" /\ delimiter_free t = true) toks ->
  nul_free (String.concat " " toks) = true ->
  Splits (cstr (String.concat " " toks)) toks.
Proof.
  intros Hall Hnul. rewrite (cstr_id _ Hnul). apply Splits_concat. exact Hall.
Qed.

Lemma Forall_repeat_a (n : nat) :
  Forall (fun t => t <> "" /\ delimiter_free t = true) (repeat "a" n).
Proof.
  apply Forall_forall. intros t Ht. apply repeat_spec in Ht. subst t.
  split; [discriminate | reflexivity].
Qed.

(** A command of two words in a world with one block of memory. *)
Lemma split_line_fits_first_block_witness :
  w_heap world_tight (TOKEN_BUFSIZE * sizeof_ptr) = true
  /\ Splits (cstr (String.concat " " (repeat "a" 2))) (repeat "a" 2)
  /\ (List.length (repeat "a" 2) < 64)%nat
  /\ split_line (String.concat " " (repeat "a" 2)) world_tight
     = Returned (repeat "a" 2) world_tight.
Proof.
  assert (Splits (cstr (String.concat " " (repeat "a" 2))) (repeat "a" 2)) as Hs
    by (apply Splits_words; [apply Forall_repeat_a | reflexivity]).
  split; [reflexivity|]. split; [exact Hs|]. split; [simpl; lia|].
  apply (split_line_fits_first_block _ _ world_tight eq_refl Hs). simpl. lia.
Defined.

(** A command of 64 words in the same world. *)
Lemma split_line_growth_refused_witness :
  w_heap world_tight (TOKEN_BUFSIZE * sizeof_ptr) = true
  /\ w_heap world_tight ((TOKEN_BUFSIZE + TOKEN_BUFSIZE) * sizeof_ptr) = false
  /\ Splits (cstr (String.concat " " (repeat "a" 64))) (repeat "a" 64)
  /\ (64 <= List.length (repeat "a" 64))%nat
  /\ split_line (String.concat " " (repeat "a" 64)) world_tight
     = Exited EXIT_FAILURE (set_stderr ("Error: Allocation error" ++ nl) world_tight).
Proof.
  assert (Splits (cstr (String.concat " " (repeat "a" 64))) (repeat "a" 64)) as Hs
    by (apply Splits_words; [apply Forall_repeat_a | reflexivity]).
  split; [reflexivity|]. split; [reflexivity|]. split; [exact Hs|].
  split; [rewrite repeat_length; lia|].
  apply (split_line_growth_refused _ _ world_tight eq_refl eq_refl Hs).
  rewrite repeat_length. lia.
Defined.

(** [ls -l]: two tokens in six bytes. *)
Lemma split_line_token_count_witness :
  (forall n, w_heap (world_ex "" AtEOF fork_fails) n = true)
  /\ split_line ("ls -l" ++ nl) (world_ex "" AtEOF fork_fails)
     = Returned ["ls"; "-l"] (world_ex "" AtEOF fork_fails)
  /\ (2 * List.length ["ls"; "-l"] <= String.length ("ls -l" ++ nl) + 1)%nat.
Proof.
  split; [intros n; reflexivity|]. split; [reflexivity|].
  exact (proj1 (split_line_token_count ("ls -l" ++ nl) ["ls"; "-l"]
                  (world_ex "" AtEOF fork_fails) (fun n => eq_refl) eq_refl)).
Defined.

(** [exit] hands back 0. *)
Lemma only_exit_stops_witness :
  execute strerror_ex ["exit"] (world_ex "" AtEOF fork_fails)
  = Returned 0 (world_ex "" AtEOF fork_fails)
  /\ ((0 = Stop /\ world_ex "" AtEOF fork_fails = world_ex "" AtEOF fork_fails
       /\ exists arg0 rest, ["exit"] = arg0 :: rest /\ cstr arg0 = "exit")
      \/ 0 = Continue).
Proof.
  split; [reflexivity|].
  exact (only_exit_stops strerror_ex ["exit"] (world_ex "" AtEOF fork_fails)
           (world_ex "" AtEOF fork_fails) 0 eq_refl).
Defined.

(** A line with one space and an empty line. *)
Lemma blank_input_exits_cleanly_witness :
  Forall (fun d => all_chars is_blank d = true) [" "; ""]
  /\ f_pending (w_stdin (world_ex (" " ++ nl ++ nl) AtEOF fork_fails)) = lines_of [" "; ""]
  /\ main strerror_ex (world_ex (" " ++ nl ++ nl) AtEOF fork_fails)
     = Exited EXIT_SUCCESS
         (set_stdin (mkFILE "" AtEOF true false)
            (set_stdout "> > > " (world_ex "" AtEOF fork_fails))).
Proof.
  assert (Forall (fun d => all_chars is_blank d = true) [" "; ""]) as Hds
    by (repeat constructor).
  split; [exact Hds|]. split; [reflexivity|].
  exact (blank_input_exits_cleanly strerror_ex [" "; ""]
           (world_ex (" " ++ nl ++ nl) AtEOF fork_fails)
           Hds (fun n => eq_refl) eq_refl eq_refl).
Defined.

End Shell.
